(** * The essay-writer revision workflow (essay_writer_console.py)

    A shallow embedding of the search resolver with provider fallback, the
    five stage functions, the routing predicate and the graph they are wired
    into, followed by the properties of the workflow.

    Conventions.
    - Python values that come back from JSON bodies are [pyval]s; a Python
      [int] is a [Z]; a [str] is a [string] whose characters are read as the
      code points 0..255.
    - Everything outside the process (the completion endpoint, the two search
      providers) is an oracle of the environment [Env]; an oracle sees the
      whole history of the calls made before it, so that its answers may
      change from one call to the next.
    - A computation is a function from a store to an [outcome] and a store:
      a raised exception keeps the store it was raised in.
    - The calls of the logger have no part in any result and are left out. *)

From Stdlib Require Import List String Ascii ZArith Bool Lia Arith.
Import ListNotations.
Open Scope string_scope.
Open Scope Z_scope.

Set Implicit Arguments.
Set Warnings "-register-all".

(** ** Python values and exceptions *)

Inductive pyval : Type :=
| PNone
| PBool (b : bool)
| PInt (z : Z)
| PStr (s : string)
| PList (l : list pyval)
| PDict (d : list (string * pyval)).

Inductive exn : Type :=
| KeyError
| IndexError
| TypeError
| AttributeError
| HTTPError
| RequestException
| JSONDecodeError.

Inductive outcome (A : Type) : Type :=
| Ok (a : A)
| Raise (e : exn).
Arguments Ok {A} a.
Arguments Raise {A} e.

Definition is_ok {A} (o : outcome A) : bool :=
  match o with Ok _ => true | Raise _ => false end.

(** [bool(v)] *)
Definition py_truthy (v : pyval) : bool :=
  match v with
  | PNone => false
  | PBool b => b
  | PInt z => negb (z =? 0)
  | PStr s => negb (String.eqb s "")
  | PList l => match l with [] => false | _ => true end
  | PDict d => match d with [] => false | _ => true end
  end.

(** A dict is kept as the list of its bindings in insertion order; a key is
    looked up at its first binding. *)
Fixpoint dict_lookup (d : list (string * pyval)) (k : string) : option pyval :=
  match d with
  | [] => None
  | (k', v) :: d' => if String.eqb k' k then Some v else dict_lookup d' k
  end.

(** [v.get(k, default)]: only a dict has the method. *)
Definition py_get (v : pyval) (k : string) (default : pyval) : outcome pyval :=
  match v with
  | PDict d => Ok (match dict_lookup d k with Some x => x | None => default end)
  | _ => Raise AttributeError
  end.

(** [v[k]] for a string key. *)
Definition py_getitem (v : pyval) (k : string) : outcome pyval :=
  match v with
  | PDict d => match dict_lookup d k with Some x => Ok x | None => Raise KeyError end
  | _ => Raise TypeError
  end.

(** [v[0]] *)
Definition py_getitem0 (v : pyval) : outcome pyval :=
  match v with
  | PList l => match l with x :: _ => Ok x | [] => Raise IndexError end
  | PStr s => match s with String c _ => Ok (PStr (String c "")) | EmptyString => Raise IndexError end
  | PDict _ => Raise KeyError
  | _ => Raise TypeError
  end.

Fixpoint chars_of (s : string) : list pyval :=
  match s with
  | EmptyString => []
  | String c s' => PStr (String c "") :: chars_of s'
  end.

(** [for r in v]: the elements a comprehension ranges over. *)
Definition py_iter (v : pyval) : outcome (list pyval) :=
  match v with
  | PList l => Ok l
  | PStr s => Ok (chars_of s)
  | PDict d => Ok (map (fun kv => PStr (fst kv)) d)
  | _ => Raise TypeError
  end.

(** [[f(r) for r in l]]: stops at the first element on which [f] raises. *)
Fixpoint comprehension (f : pyval -> outcome pyval) (l : list pyval)
  : outcome (list pyval) :=
  match l with
  | [] => Ok []
  | r :: l' =>
      match f r with
      | Raise e => Raise e
      | Ok x => match comprehension f l' with
                | Raise e => Raise e
                | Ok xs => Ok (x :: xs)
                end
      end
  end.

Definition is_str (v : pyval) : bool :=
  match v with PStr _ => true | _ => false end.

(** ** Strings: [str.strip], [str.split('\n')], [sep.join] *)

(** [c.isspace()] on the code points below 256. *)
Definition py_isspace (c : ascii) : bool :=
  let n := nat_of_ascii c in
  (((9 <=? n) && (n <=? 13)) || ((28 <=? n) && (n <=? 32))
   || (n =? 133) || (n =? 160))%nat.

Fixpoint lstrip (s : string) : string :=
  match s with
  | EmptyString => EmptyString
  | String c s' => if py_isspace c then lstrip s' else s
  end.

Fixpoint rstrip (s : string) : string :=
  match s with
  | EmptyString => EmptyString
  | String c s' =>
      match rstrip s' with
      | EmptyString => if py_isspace c then EmptyString else String c EmptyString
      | r => String c r
      end
  end.

Definition strip (s : string) : string := rstrip (lstrip s).

Definition newline : ascii := ascii_of_nat 10.

(** [s.split('\n')]: always at least one piece. *)
Fixpoint split_newline (s : string) : list string :=
  match s with
  | EmptyString => [EmptyString]
  | String c s' =>
      if Ascii.eqb c newline then EmptyString :: split_newline s'
      else match split_newline s' with
           | piece :: rest => String c piece :: rest
           | [] => [String c EmptyString]
           end
  end.

Definition nonempty (s : string) : bool := negb (String.eqb s "").

(** [sep.join(l)]: every element has to be a [str]. *)
Fixpoint join (sep : string) (l : list pyval) : outcome string :=
  match l with
  | [] => Ok ""
  | x :: l' =>
      match x with
      | PStr s =>
          match l' with
          | [] => Ok s
          | _ => match join sep l' with
                 | Ok r => Ok (s ++ sep ++ r)%string
                 | Raise e => Raise e
                 end
          end
      | _ => Raise TypeError
      end
  end.

(** ** Computations over a store, with exceptions *)

Definition M (S A : Type) : Type := S -> outcome A * S.

Definition ret {S A} (a : A) : M S A := fun s => (Ok a, s).

Definition bind {S A B} (m : M S A) (k : A -> M S B) : M S B :=
  fun s => match m s with
           | (Ok a, s') => k a s'
           | (Raise e, s') => (Raise e, s')
           end.

(** A pure step that may raise. *)
Definition lift {S A} (o : outcome A) : M S A := fun s => (o, s).

(** [try: m  except Exception: h] *)
Definition try_except {S A} (m : M S A) (h : exn -> M S A) : M S A :=
  fun s => match m s with
           | (Ok a, s') => (Ok a, s')
           | (Raise e, s') => h e s'
           end.

Declare Scope py_scope.
Delimit Scope py_scope with py.
Notation "x <- m ;; k" := (bind m (fun x => k))
  (at level 61, m at next level, right associativity) : py_scope.
Notation "m ;;; k" := (bind m (fun _ => k))
  (at level 61, right associativity) : py_scope.
Open Scope py_scope.

(** ** The outside world *)

(** What the process does to the outside, in the order it does it. *)
Inductive event : Type :=
| TavilySearch (query : string) (max_results : Z)
| GoogleGet (key cx : option string) (query : string) (num : Z)
| MistralPost (prompt : list pyval)
| Print (parts : list pyval).

Definition history : Type := list event.

(** The history with one more event at its end. *)
Definition record (h : history) (e : event) : history := (h ++ [e])%list.

Definition is_external (e : event) : bool :=
  match e with Print _ => false | _ => true end.

Definition is_tavily (e : event) : bool :=
  match e with TavilySearch _ _ => true | _ => false end.

Definition is_google (e : event) : bool :=
  match e with GoogleGet _ _ _ _ => true | _ => false end.

Definition is_mistral (e : event) : bool :=
  match e with MistralPost _ => true | _ => false end.

(** The configuration read from the process environment and the three
    remote services.  [tavily] is [tavily.search(...)]: the parsed body or an
    exception.  [google_http] is [requests.get] followed by
    [raise_for_status] and [json]; [mistral_http] the same for
    [requests.post].  A prompt is the sequence of the values that the
    f-strings render, in order. *)
Record Env : Type := {
  GOOGLE_API_KEY : option string;
  GOOGLE_CSE_ID : option string;
  tavily : history -> string -> Z -> outcome pyval;
  google_http : history -> option string -> option string -> string -> Z
                -> outcome pyval;
  mistral_http : history -> list pyval -> outcome pyval
}.

(** Truth value of [os.environ.get(...)]. *)
Definition configured (v : option string) : bool :=
  match v with
  | Some s => nonempty s
  | None => false
  end.

(** ** Workflow state *)

Record AgentState : Type := {
  task : string;
  plan : pyval;
  draft : pyval;
  critique : pyval;
  content : list pyval;
  revision_number : option Z;
  max_revisions : Z
}.

(** The dict a stage returns: the keys it holds. *)
Record update : Type := {
  u_task : option string;
  u_plan : option pyval;
  u_draft : option pyval;
  u_critique : option pyval;
  u_content : option (list pyval);
  u_revision_number : option Z;
  u_max_revisions : option Z
}.

Definition no_update : update :=
  {| u_task := None; u_plan := None; u_draft := None; u_critique := None;
     u_content := None; u_revision_number := None; u_max_revisions := None |}.

Definition or_else {A} (o : option A) (a : A) : A :=
  match o with Some x => x | None => a end.

(** The graph writes every key of the returned dict over the state. *)
Definition apply_update (u : update) (s : AgentState) : AgentState :=
  {| task := or_else (u_task u) (task s);
     plan := or_else (u_plan u) (plan s);
     draft := or_else (u_draft u) (draft s);
     critique := or_else (u_critique u) (critique s);
     content := or_else (u_content u) (content s);
     revision_number :=
       match u_revision_number u with
       | Some r => Some r
       | None => revision_number s
       end;
     max_revisions := or_else (u_max_revisions u) (max_revisions s) |}.

(** The store a stage runs in: the state object it was handed, which it can
    reach into, and the history of the outside world. *)
Record Machine : Type := {
  store : AgentState;
  past : history
}.

Definition set_store (s : AgentState) (m : Machine) : Machine :=
  {| store := s; past := past m |}.

Definition set_content (c : list pyval) (s : AgentState) : AgentState :=
  {| task := task s; plan := plan s; draft := draft s; critique := critique s;
     content := c; revision_number := revision_number s;
     max_revisions := max_revisions s |}.

(** Run a computation on the outside world inside a stage. *)
Definition in_world {A} (m : M history A) : M Machine A :=
  fun w => let (r, h) := m (past w) in (r, {| store := store w; past := h |}).

Definition get_state : M Machine AgentState := fun w => (Ok (store w), w).

(** [content.extend(...)] on the list object of the state itself. *)
Definition write_content (c : list pyval) : M Machine unit :=
  fun w => (Ok tt, set_store (set_content c (store w)) w).

(** ** Prompts *)

Definition nl : string := String newline "".

Definition PLAN_PROMPT : string :=
"You are an expert writer tasked with writing a high-level outline of an essay.
Write such an outline for the user provided topic. Give an outline of the essay along with any relevant notes
or instructions for the sections.".

(** [WRITER_PROMPT.format(content=content)]: the placeholder ends the text. *)
Definition WRITER_PROMPT (content : string) : string :=
("You are an essay assistant tasked with writing excellent 5-paragraph essays.
Generate the best essay possible for the user's request and the initial outline.
If the user provides critique, respond with a revised version of your previous attempts.
Utilize all the information below as needed:

------

" ++ content)%string.

Definition REFLECTION_PROMPT : string :=
"You are a teacher grading an essay submission.
Generate critique and recommendations for the user's submission.
Provide detailed recommendations, including requests for length, depth, style, etc.".

Definition RESEARCH_PLAN_PROMPT : string :=
"You are a researcher charged with providing information that can
be used when writing the following essay. Generate a list of search queries that will gather
any relevant information. Only generate 3 queries max.".

Definition RESEARCH_CRITIQUE_PROMPT : string :=
"You are a researcher charged with providing information that can
be used when making any requested revisions (as outlined below).
Generate a list of search queries that will gather any relevant information. Only generate 3 queries max.".

(** A message: its role and the values its content is rendered from. *)
Record message : Type := {
  role : string;
  parts : list pyval
}.

Definition system (text : string) : message :=
  {| role := "system"; parts := [PStr text] |}.

Definition user (parts : list pyval) : message :=
  {| role := "user"; parts := parts |}.

(** ["\n".join([f"{msg['role']}: {msg['content']}" for msg in messages])] *)
Fixpoint prompt_of (messages : list message) : list pyval :=
  match messages with
  | [] => []
  | msg :: rest =>
      ((PStr (role msg) :: PStr ": " :: parts msg)
       ++ match rest with
          | [] => []
          | _ => PStr nl :: prompt_of rest
          end)%list
  end.

(** [response['choices'][0]['text']] *)
Definition completion_text (response : pyval) : outcome pyval :=
  match py_getitem response "choices" with
  | Raise e => Raise e
  | Ok choices =>
      match py_getitem0 choices with
      | Raise e => Raise e
      | Ok choice => py_getitem choice "text"
      end
  end.

(** [[q.strip() for q in text.split('\n') if q.strip()]] *)
Definition queries_of (text : string) : list string :=
  flat_map (fun q => if nonempty (strip q) then [strip q] else [])
           (split_newline text).

(** The same on the value the completion returned: only a [str] has
    [split]. *)
Definition parse_queries (text : pyval) : outcome (list string) :=
  match text with
  | PStr s => Ok (queries_of s)
  | _ => Raise AttributeError
  end.

(** ** The program *)

Section Workflow.

Variable env : Env.

Definition tavily_search (query : string) (max_results : Z) : M history pyval :=
  fun h => (tavily env h query max_results,
            record h (TavilySearch query max_results)).

(** [requests.get(url, params=params)], [raise_for_status()], [json()] *)
Definition requests_get_google (query : string) (max_results : Z)
  : M history pyval :=
  fun h => (google_http env h (GOOGLE_API_KEY env) (GOOGLE_CSE_ID env)
                        query max_results,
            record h (GoogleGet (GOOGLE_API_KEY env) (GOOGLE_CSE_ID env)
                                query max_results)).

Definition google_search (query : string) (max_results : Z) : M history pyval :=
  try_except (requests_get_google query max_results)
             (fun _ => ret PNone).

(** The [try] block of [search_with_fallback]: [Some] of the snippets when
    the block returns them, [None] when control falls out of it. *)
Definition try_tavily (query : string) (max_results : Z)
  : M history (option (list pyval)) :=
  try_except
    (search_response <- tavily_search query max_results ;;
     results <- lift (py_get search_response "results" (PList [])) ;;
     if py_truthy results then
       rs <- lift (py_iter results) ;;
       snippets <- lift (comprehension (fun r => py_getitem r "content") rs) ;;
       ret (Some snippets)
     else ret None)
    (fun _ => ret None).

Definition search_with_fallback (query : string) (max_results : Z)
  : M history (list pyval) :=
  found <- try_tavily query max_results ;;
  match found with
  | Some snippets => ret snippets
  | None =>
      if configured (GOOGLE_API_KEY env) && configured (GOOGLE_CSE_ID env) then
        search_response <- google_search query max_results ;;
        if py_truthy search_response then
          results <- lift (py_get search_response "items" (PList [])) ;;
          if py_truthy results then
            rs <- lift (py_iter results) ;;
            lift (comprehension (fun r => py_get r "snippet" (PStr "")) rs)
          else ret []
        else ret []
      else ret []
  end.

(** The exception of [requests.post], [raise_for_status] or [json] leaves the
    function as it is (the handler logs and re-raises). *)
Definition call_mistral_api (messages : list message) : M Machine pyval :=
  in_world (fun h => (mistral_http env h (prompt_of messages),
                      record h (MistralPost (prompt_of messages)))).

Definition plan_node : M Machine update :=
  state <- get_state ;;
  response <- call_mistral_api [system PLAN_PROMPT; user [PStr (task state)]] ;;
  text <- lift (completion_text response) ;;
  ret {| u_task := None; u_plan := Some text; u_draft := None;
         u_critique := None; u_content := None; u_revision_number := None;
         u_max_revisions := None |}.

(** [content = state['content'] or []]: the list of the state itself unless
    that list is empty, in which case a new one. *)
Definition shares_content (state : AgentState) : bool :=
  match content state with [] => false | _ => true end.

(** [for q in queries: content.extend(search_with_fallback(q, 2))], where
    [shared] tells whether [content] is the list object of the state. *)
Fixpoint search_queries (shared : bool) (queries : list string)
  (content : list pyval) : M Machine (list pyval) :=
  match queries with
  | [] => ret content
  | q :: rest =>
      search_results <- in_world (search_with_fallback q 2) ;;
      (if shared then write_content (content ++ search_results)%list
       else ret tt) ;;;
      search_queries shared rest (content ++ search_results)%list
  end.

Definition research_plan_node : M Machine update :=
  state <- get_state ;;
  response <- call_mistral_api
                [system RESEARCH_PLAN_PROMPT; user [PStr (task state)]] ;;
  text <- lift (completion_text response) ;;
  queries <- lift (parse_queries text) ;;
  content <- search_queries (shares_content state) (firstn 3 queries)
                            (content state) ;;
  ret {| u_task := None; u_plan := None; u_draft := None; u_critique := None;
         u_content := Some content; u_revision_number := None;
         u_max_revisions := None |}.

Definition generation_node : M Machine update :=
  state <- get_state ;;
  content <- lift (join (nl ++ nl) (content state)) ;;
  let user_message :=
    user [PStr (task state); PStr (nl ++ nl ++ "Here is my plan:" ++ nl ++ nl);
          plan state] in
  response <- call_mistral_api [system (WRITER_PROMPT content); user_message] ;;
  text <- lift (completion_text response) ;;
  ret {| u_task := None; u_plan := None; u_draft := Some text;
         u_critique := None; u_content := None;
         u_revision_number := Some (or_else (revision_number state) 1 + 1);
         u_max_revisions := None |}.

Definition reflection_node : M Machine update :=
  state <- get_state ;;
  response <- call_mistral_api [system REFLECTION_PROMPT; user [draft state]] ;;
  text <- lift (completion_text response) ;;
  ret {| u_task := None; u_plan := None; u_draft := None;
         u_critique := Some text; u_content := None;
         u_revision_number := None; u_max_revisions := None |}.

Definition research_critique_node : M Machine update :=
  state <- get_state ;;
  response <- call_mistral_api
                [system RESEARCH_CRITIQUE_PROMPT; user [critique state]] ;;
  text <- lift (completion_text response) ;;
  queries <- lift (parse_queries text) ;;
  content <- search_queries (shares_content state) (firstn 3 queries)
                            (content state) ;;
  ret {| u_task := None; u_plan := None; u_draft := None; u_critique := None;
         u_content := Some content; u_revision_number := None;
         u_max_revisions := None |}.

(** ** The graph *)

Inductive node : Type :=
| planner
| generate
| reflect
| research_plan
| research_critique.

Inductive target : Type :=
| END
| goto (n : node).

Definition node_eqb (a b : node) : bool :=
  match a, b with
  | planner, planner | generate, generate | reflect, reflect
  | research_plan, research_plan | research_critique, research_critique => true
  | _, _ => false
  end.

(** [state["revision_number"]] raises when the key is missing. *)
Definition should_continue (state : AgentState) : outcome target :=
  match revision_number state with
  | None => Raise KeyError
  | Some r => if r >? max_revisions state then Ok END else Ok (goto reflect)
  end.

(** [builder.add_node] *)
Definition node_function (n : node) : M Machine update :=
  match n with
  | planner => plan_node
  | generate => generation_node
  | reflect => reflection_node
  | research_plan => research_plan_node
  | research_critique => research_critique_node
  end.

(** [builder.add_edge] and [builder.add_conditional_edges]; the mapping of the
    conditional edge sends each answer of [should_continue] to itself. *)
Definition successor (n : node) (state : AgentState) : outcome target :=
  match n with
  | planner => Ok (goto research_plan)
  | research_plan => Ok (goto generate)
  | reflect => Ok (goto research_critique)
  | research_critique => Ok (goto generate)
  | generate => should_continue state
  end.

Definition entry_point : node := planner.

(** One turn of the graph: run the stage on the state, write its update over
    the state, pick the successor from the new state. *)
Inductive turn : Type :=
| Stopped (w : Machine)
| Next (n : node) (w : Machine)
| Failed (e : exn) (w : Machine).

Definition step (n : node) (w : Machine) : turn :=
  match node_function n w with
  | (Raise e, w') => Failed e w'
  | (Ok u, w') =>
      let w'' := set_store (apply_update u (store w')) w' in
      match successor n (store w'') with
      | Raise e => Failed e w''
      | Ok END => Stopped w''
      | Ok (goto n') => Next n' w''
      end
  end.

Inductive ending : Type :=
| Finished
| Aborted (e : exn)
| OutOfFuel.

(** One completed stage: the state it was handed and the state after its
    update was written. *)
Record visit : Type := {
  at_node : node;
  before : AgentState;
  after : AgentState
}.

Record run : Type := {
  visits : list visit;
  how : ending;
  final : Machine
}.

Fixpoint invoke_from (fuel : nat) (n : node) (w : Machine) : run :=
  match fuel with
  | O => {| visits := []; how := OutOfFuel; final := w |}
  | S fuel' =>
      match step n w with
      | Failed e w' => {| visits := []; how := Aborted e; final := w' |}
      | Stopped w' =>
          {| visits := [{| at_node := n; before := store w; after := store w' |}];
             how := Finished; final := w' |}
      | Next n' w' =>
          let r := invoke_from fuel' n' w' in
          {| visits := {| at_node := n; before := store w; after := store w' |}
                       :: visits r;
             how := how r; final := final r |}
      end
  end.

(** [graph.invoke(initial)] *)
Definition graph_invoke (fuel : nat) (initial : AgentState) (h : history) : run :=
  invoke_from fuel entry_point {| store := initial; past := h |}.

Definition print (parts : list pyval) (h : history) : history :=
  record h (Print parts).

Definition initial_state (essay_topic : string) (max_revisions : Z) : AgentState :=
  {| task := essay_topic; plan := PStr ""; draft := PStr "";
     critique := PStr ""; content := []; revision_number := Some 0;
     max_revisions := max_revisions |}.

(** [main], on the line that [input] returned. *)
Definition main (fuel : nat) (line : string) (h : history) : ending * history :=
  let essay_topic := strip line in
  if nonempty essay_topic then
    let r := graph_invoke fuel (initial_state essay_topic 3) h in
    match how r with
    | Finished =>
        (Finished,
         print [draft (store (final r))]
               (print [PStr (nl ++ "Final Essay:")] (past (final r))))
    | other => (other, past (final r))
    end
  else (Finished, print [PStr "Error: Essay topic cannot be empty."] h).

End Workflow.

(** ** Vocabulary of the properties *)

Definition prefix {A} (l1 l2 : list A) : Prop :=
  exists added, l2 = (l1 ++ added)%list.

Definition has_key (k : string) (d : list (string * pyval)) : bool :=
  match dict_lookup d k with Some _ => true | None => false end.

Definition field_or (k : string) (default : pyval) (d : list (string * pyval))
  : pyval :=
  or_else (dict_lookup d k) default.

(** A provider body without results: an object whose result list is absent
    or empty. *)
Definition empty_result_set (results_key : string) (body : pyval) : bool :=
  match body with
  | PDict d =>
      match dict_lookup d results_key with
      | None => true
      | Some (PList []) => true
      | Some _ => false
      end
  | _ => false
  end.

(** A provider call that failed (raised) or came back without results. *)
Definition failed_or_empty (results_key : string) (answer : outcome pyval) : bool :=
  match answer with
  | Raise _ => true
  | Ok body => empty_result_set results_key body
  end.

(** A provider answer that holds at most [max_results] results. *)
Definition within (results_key : string) (max_results : Z)
  (answer : outcome pyval) : bool :=
  match answer with
  | Ok (PDict d) =>
      match dict_lookup d results_key with
      | Some (PList l) => Z.of_nat (List.length l) <=? max_results
      | _ => true
      end
  | _ => true
  end.

Definition secondary_configured (env : Env) : bool :=
  configured (GOOGLE_API_KEY env) && configured (GOOGLE_CSE_ID env).

(** The query list in the words of the specification: split on line breaks,
    trim each line, drop the empty lines. *)
Definition trimmed_nonempty_lines (text : string) : list string :=
  filter nonempty (map strip (split_newline text)).

(** The queries handed to the resolver, in order: every resolver call starts
    with exactly one call of the primary provider. *)
Definition searched (h : history) : list string :=
  flat_map (fun e => match e with TavilySearch q _ => [q] | _ => [] end) h.

Definition external_calls (h : history) : list event := filter is_external h.

(** The completion request of a stage on a state; the Generate stage joins
    the content first, which can raise. *)
Definition request_of (n : node) (s : AgentState) : outcome (list message) :=
  match n with
  | planner => Ok [system PLAN_PROMPT; user [PStr (task s)]]
  | research_plan => Ok [system RESEARCH_PLAN_PROMPT; user [PStr (task s)]]
  | generate =>
      match join (nl ++ nl) (content s) with
      | Raise e => Raise e
      | Ok c =>
          Ok [system (WRITER_PROMPT c);
              user [PStr (task s);
                    PStr (nl ++ nl ++ "Here is my plan:" ++ nl ++ nl); plan s]]
      end
  | reflect => Ok [system REFLECTION_PROMPT; user [draft s]]
  | research_critique => Ok [system RESEARCH_CRITIQUE_PROMPT; user [critique s]]
  end.

(** The algorithm that the two research stages share, over the messages of
    their completion request. *)
Definition research_stage (env : Env) (messages : AgentState -> list message)
  : M Machine update :=
  state <- get_state ;;
  response <- call_mistral_api env (messages state) ;;
  text <- lift (completion_text response) ;;
  queries <- lift (parse_queries text) ;;
  content <- search_queries env (shares_content state) (firstn 3 queries)
                            (content state) ;;
  ret {| u_task := None; u_plan := None; u_draft := None; u_critique := None;
         u_content := Some content; u_revision_number := None;
         u_max_revisions := None |}.

Definition research_messages (n : node) (s : AgentState) : list message :=
  match n with
  | research_critique => [system RESEARCH_CRITIQUE_PROMPT; user [critique s]]
  | _ => [system RESEARCH_PLAN_PROMPT; user [PStr (task s)]]
  end.

(** The machine after the completion request of [messages] was sent. *)
Definition posted (messages : list message) (w : Machine) : Machine :=
  {| store := store w;
     past := record (past w) (MistralPost (prompt_of messages)) |}.

(** The machine a turn ends in. *)
Definition machine_of (t : turn) : Machine :=
  match t with
  | Stopped w | Next _ w | Failed _ w => w
  end.

(** The content along the visits of a run: each stage is handed a content
    that extends [c], leaves a content that extends the one it was handed,
    and the rest of the run goes on from there. *)
Fixpoint append_only (c : list pyval) (vs : list visit) : Prop :=
  match vs with
  | [] => True
  | v :: rest =>
      prefix c (content (before v))
      /\ prefix (content (before v)) (content (after v))
      /\ append_only (content (after v)) rest
  end.

(** Whether a body is a JSON object. *)
Definition is_object (v : pyval) : bool :=
  match v with PDict _ => true | _ => false end.

(** A search event: a call of one of the two providers. *)
Definition is_search (e : event) : bool := is_tavily e || is_google e.

Definition count_tavily (h : history) : nat := List.length (filter is_tavily h).

Definition count_google (h : history) : nat := List.length (filter is_google h).

Definition count_mistral (h : history) : nat := List.length (filter is_mistral h).

(** Whether the character occurs in the string. *)
Fixpoint has_char (c : ascii) (s : string) : bool :=
  match s with
  | EmptyString => false
  | String c' s' => Ascii.eqb c' c || has_char c s'
  end.

(** The visits are a path of the graph from stage [n] on state [s]: each
    stage is handed the state the one before it left, and is the successor
    that the graph picks on that state. *)
Fixpoint follows_edges (n : node) (s : AgentState) (vs : list visit) : Prop :=
  match vs with
  | [] => True
  | v :: rest =>
      at_node v = n
      /\ before v = s
      /\ match rest with
         | [] => True
         | v' :: _ =>
             successor n (after v) = Ok (goto (at_node v'))
             /\ follows_edges (at_node v') (after v) rest
         end
  end.

(** [d] rounds of Generate, Reflect, Research-for-Critique, and a last
    Generate. *)
Fixpoint revision_cycle (d : nat) : list node :=
  match d with
  | O => [generate]
  | S d' => generate :: reflect :: research_critique :: revision_cycle d'
  end.

(** The keys a stage may write. *)
Definition writes_plan (n : node) : bool := node_eqb n planner.
Definition writes_draft (n : node) : bool := node_eqb n generate.
Definition writes_critique (n : node) : bool := node_eqb n reflect.

Definition is_research (n : node) : bool :=
  match n with research_plan | research_critique => true | _ => false end.

(** The revision counter before and after each Generate visit of a run. *)
Definition generations (r : run) : list (option Z * option Z) :=
  map (fun v => (revision_number (before v), revision_number (after v)))
      (filter (fun v => node_eqb (at_node v) generate) (visits r)).

(** [k] increments by one, starting at [from]. *)
Fixpoint increments (k : nat) (from : Z) : list (option Z * option Z) :=
  match k with
  | O => []
  | S k' => (Some from, Some (from + 1)) :: increments k' (from + 1)
  end.

Definition all_strings (l : list pyval) : bool := forallb is_str l.

(** Every completion request is answered with a body that carries a text. *)
Definition completions_succeed (env : Env) : Prop :=
  forall h p, exists body t,
    mistral_http env h p = Ok body /\ completion_text body = Ok (PStr t).

(** Every resolver call returns, and returns strings. *)
Definition searches_succeed (env : Env) : Prop :=
  forall h q k, exists l,
    fst (search_with_fallback env q k h) = Ok l /\ all_strings l = true.

(** ** Sample worlds *)

Definition completion_body (text : string) : pyval :=
  PDict [("choices", PList [PDict [("text", PStr text)]])].

Definition tavily_body (snippets : list string) : pyval :=
  PDict [("results",
          PList (map (fun s => PDict [("content", PStr s)]) snippets))].

Definition google_body (snippets : list string) : pyval :=
  PDict [("items",
          PList (map (fun s => PDict [("snippet", PStr s)]) snippets))].

(** Both providers answer; the completion writes three queries. *)
Definition env_live : Env :=
  {| GOOGLE_API_KEY := Some "key";
     GOOGLE_CSE_ID := Some "cx";
     tavily := fun _ q _ => Ok (tavily_body [q; "more"]);
     google_http := fun _ _ _ q _ => Ok (google_body [q]);
     mistral_http := fun _ _ =>
       Ok (completion_body ("alpha" ++ nl ++ " beta " ++ nl ++ nl ++ "gamma")) |}.

(** The primary provider is down, the secondary answers. *)
Definition env_fallback : Env :=
  {| GOOGLE_API_KEY := Some "key";
     GOOGLE_CSE_ID := Some "cx";
     tavily := fun _ _ _ => Raise RequestException;
     google_http := fun _ _ _ q _ => Ok (google_body [q; "second"]);
     mistral_http := fun _ _ => Ok (completion_body "") |}.

(** Both providers are down, and so is the completion endpoint. *)
Definition env_down : Env :=
  {| GOOGLE_API_KEY := Some "key";
     GOOGLE_CSE_ID := Some "cx";
     tavily := fun _ _ _ => Raise RequestException;
     google_http := fun _ _ _ _ _ => Raise HTTPError;
     mistral_http := fun _ _ => Raise HTTPError |}.

(** A primary provider that returns three results whatever it is asked. *)
Definition env_generous : Env :=
  {| GOOGLE_API_KEY := None;
     GOOGLE_CSE_ID := None;
     tavily := fun _ _ _ => Ok (tavily_body ["a"; "b"; "c"]);
     google_http := fun _ _ _ _ _ => Raise HTTPError;
     mistral_http := fun _ _ => Ok (completion_body "") |}.

(** The primary provider is down and the secondary answers with a body that
    parses but is an array, not an object. *)
Definition env_array_body : Env :=
  {| GOOGLE_API_KEY := Some "key";
     GOOGLE_CSE_ID := Some "cx";
     tavily := fun _ _ _ => Raise RequestException;
     google_http := fun _ _ _ _ _ => Ok (PList [PStr "unexpected"]);
     mistral_http := fun _ _ => Ok (completion_body "") |}.

(** The completion writes five queries. *)
Definition env_wordy : Env :=
  {| GOOGLE_API_KEY := None;
     GOOGLE_CSE_ID := None;
     tavily := fun _ q _ => Ok (tavily_body [q]);
     google_http := fun _ _ _ _ _ => Raise HTTPError;
     mistral_http := fun _ _ =>
       Ok (completion_body
             ("one" ++ nl ++ "two" ++ nl ++ "three" ++ nl ++ "four" ++ nl
              ++ "five")) |}.

(** A primary provider whose second result has no content field; no
    secondary provider. *)
Definition env_partial : Env :=
  {| GOOGLE_API_KEY := None;
     GOOGLE_CSE_ID := None;
     tavily := fun _ _ _ =>
       Ok (PDict [("results",
                   PList [PDict [("content", PStr "kept?")];
                          PDict [("title", PStr "no content")]])]);
     google_http := fun _ _ _ _ _ => Raise HTTPError;
     mistral_http := fun _ _ => Ok (completion_body "") |}.

(** A completion endpoint that answers with an object without choices. *)
Definition env_no_choices : Env :=
  {| GOOGLE_API_KEY := None;
     GOOGLE_CSE_ID := None;
     tavily := fun _ _ _ => Raise RequestException;
     google_http := fun _ _ _ _ _ => Raise HTTPError;
     mistral_http := fun _ _ => Ok (PDict [("error", PStr "overloaded")]) |}.

(** A state whose content holds a value that is not a string. *)
Definition tainted_machine : Machine :=
  {| store := {| task := "Remote work"; plan := PStr "outline";
                 draft := PStr ""; critique := PStr "";
                 content := [PStr "fine"; PNone];
                 revision_number := Some 0; max_revisions := 3 |};
     past := [] |}.

(** The primary provider is down and the secondary answers with an object
    whose items are not objects. *)
Definition env_bare_items : Env :=
  {| GOOGLE_API_KEY := Some "key";
     GOOGLE_CSE_ID := Some "cx";
     tavily := fun _ _ _ => Raise RequestException;
     google_http := fun _ _ _ _ _ =>
       Ok (PDict [("items", PList [PStr "bare"; PStr "strings"])]);
     mistral_http := fun _ _ => Ok (completion_body "") |}.

Definition sample_state : AgentState :=
  {| task := "Remote work"; plan := PStr "outline"; draft := PStr "draft";
     critique := PStr "critique"; content := [PStr "old"];
     revision_number := Some 0; max_revisions := 2 |}.

Definition sample_machine : Machine :=
  {| store := sample_state; past := [] |}.

(** ** Lists, strings and comprehensions *)

Lemma prefix_refl {A} (l : list A) : prefix l l.
Proof. exists []. now rewrite app_nil_r. Qed.

Lemma prefix_trans {A} (l1 l2 l3 : list A) :
  prefix l1 l2 -> prefix l2 l3 -> prefix l1 l3.
Proof.
  intros [a Ha] [b Hb]. exists (a ++ b)%list.
  now rewrite Hb, Ha, app_assoc.
Qed.

Lemma prefix_app {A} (l added : list A) : prefix l (l ++ added)%list.
Proof. now exists added. Qed.

Lemma prefix_length {A} (l1 l2 : list A) :
  prefix l1 l2 -> (List.length l1 <= List.length l2)%nat.
Proof. intros [a ->]. rewrite length_app. lia. Qed.

Lemma comprehension_length f l xs :
  comprehension f l = Ok xs -> List.length xs = List.length l.
Proof.
  revert xs. induction l as [|r l IH]; intros xs H; simpl in H.
  - now inversion H.
  - destruct (f r); [|discriminate].
    destruct (comprehension f l); [|discriminate].
    inversion H; subst. simpl. now rewrite (IH _ eq_refl).
Qed.

Lemma comprehension_getitem k hits :
  forallb (has_key k) hits = true ->
  comprehension (fun r => py_getitem r k) (map PDict hits)
  = Ok (map (field_or k PNone) hits).
Proof.
  induction hits as [|d hits IH]; simpl; intros H; [reflexivity|].
  apply andb_true_iff in H as [Hd Hrest].
  unfold has_key in Hd. unfold field_or at 1.
  destruct (dict_lookup d k); [|discriminate].
  now rewrite (IH Hrest).
Qed.

Lemma comprehension_get k default items :
  comprehension (fun r => py_get r k default) (map PDict items)
  = Ok (map (field_or k default) items).
Proof.
  induction items as [|d items IH]; simpl; [reflexivity|].
  now rewrite IH.
Qed.

(** A comprehension whose body rejects strings succeeds on a truthy value
    only if that value is a list. *)
Lemma comprehension_over_list f results rs xs :
  (forall s, exists e, f (PStr s) = Raise e) ->
  py_truthy results = true ->
  py_iter results = Ok rs ->
  comprehension f rs = Ok xs ->
  results = PList rs.
Proof.
  intros Hstr Ht Hi Hc.
  destruct results as [| | |s|l|d]; simpl in Hi; try discriminate.
  - destruct s as [|c s]; [discriminate|].
    inversion Hi; subst. simpl in Hc.
    destruct (Hstr (String c "")) as [e He]. now rewrite He in Hc.
  - now inversion Hi.
  - destruct d as [|[k v] d]; [discriminate|].
    inversion Hi; subst. simpl in Hc.
    destruct (Hstr k) as [e He]. now rewrite He in Hc.
Qed.

Lemma all_strings_app l1 l2 :
  all_strings (l1 ++ l2) = all_strings l1 && all_strings l2.
Proof. apply forallb_app. Qed.

Lemma join_strings sep l :
  all_strings l = true -> exists s, join sep l = Ok s.
Proof.
  induction l as [|x l IH]; intros H; [now exists ""|].
  simpl in H. apply andb_true_iff in H as [Hx Hl].
  destruct x; try discriminate. simpl.
  destruct l as [|y l]; [now eexists|].
  destruct (IH Hl) as [r Hr]. rewrite Hr. now eexists.
Qed.

(** ** The search resolver *)

Section Resolver.

Variable env : Env.

Lemma try_tavily_fallthrough q k h :
  failed_or_empty "results" (tavily env h q k) = true ->
  try_tavily env q k h = (Ok None, record h (TavilySearch q k)).
Proof.
  intros H. unfold try_tavily, try_except, bind, tavily_search, lift, ret.
  destruct (tavily env h q k) as [body|e]; [|reflexivity].
  simpl in H. destruct body as [| | | | |d]; try discriminate.
  simpl in *.
  destruct (dict_lookup d "results") as [[| | | |[|x l]|]|];
    try discriminate; reflexivity.
Qed.

Lemma try_tavily_history q k h :
  snd (try_tavily env q k h) = record h (TavilySearch q k).
Proof.
  unfold try_tavily, try_except, bind, tavily_search, lift, ret.
  destruct (tavily env h q k) as [body|e]; [|reflexivity].
  destruct (py_get body "results" (PList [])) as [results|e]; [|reflexivity].
  destruct (py_truthy results); [|reflexivity].
  destruct (py_iter results) as [rs|e]; [|reflexivity].
  now destruct (comprehension _ rs).
Qed.

Lemma try_tavily_found q k h snippets :
  fst (try_tavily env q k h) = Ok (Some snippets) ->
  exists d rs,
    tavily env h q k = Ok (PDict d)
    /\ dict_lookup d "results" = Some (PList rs)
    /\ List.length snippets = List.length rs.
Proof.
  unfold try_tavily, try_except, bind, tavily_search, lift, ret.
  destruct (tavily env h q k) as [body|e]; [|discriminate].
  destruct body as [| | | | |d]; simpl; try discriminate.
  destruct (dict_lookup d "results") as [results|] eqn:Hd; simpl;
    [|discriminate].
  destruct (py_truthy results) eqn:Ht; [|discriminate].
  destruct (py_iter results) as [rs|e] eqn:Hi; [|discriminate].
  destruct (comprehension _ rs) as [xs|e] eqn:Hc; simpl; [|discriminate].
  intros H. inversion H; subst.
  exists d, rs. split; [reflexivity|].
  assert (results = PList rs) as ->.
  { eapply comprehension_over_list; eauto. intros s. now eexists. }
  split; [exact Hd|]. eapply comprehension_length; eauto.
Qed.

Lemma try_tavily_never_raises q k h :
  exists found, fst (try_tavily env q k h) = Ok found.
Proof.
  unfold try_tavily, try_except, bind, tavily_search, lift, ret.
  destruct (tavily env h q k) as [body|e]; [|now eexists].
  destruct (py_get body "results" (PList [])) as [results|e]; [|now eexists].
  destruct (py_truthy results); [|now eexists].
  destruct (py_iter results) as [rs|e]; [|now eexists].
  destruct (comprehension _ rs); now eexists.
Qed.

(** Every resolver call asks the primary provider first, exactly once, and
    after that at most the secondary provider. *)
Lemma search_with_fallback_history q k h :
  exists tail,
    snd (search_with_fallback env q k h)
    = (h ++ TavilySearch q k :: tail)%list
    /\ (tail = []
        \/ tail = [GoogleGet (GOOGLE_API_KEY env) (GOOGLE_CSE_ID env) q k]).
Proof.
  unfold search_with_fallback, bind.
  pose proof (try_tavily_history q k h) as Hh.
  destruct (try_tavily_never_raises q k h) as [found Hf].
  destruct (try_tavily env q k h) as [r h1]. simpl in Hh, Hf. subst r h1.
  assert (H0 : exists tail,
             record h (TavilySearch q k) = (h ++ TavilySearch q k :: tail)%list
             /\ (tail = []
                 \/ tail = [GoogleGet (GOOGLE_API_KEY env) (GOOGLE_CSE_ID env)
                                      q k])).
  { exists []. split; [reflexivity|now left]. }
  destruct found as [snippets|]; [exact H0|].
  destruct (configured _ && configured _); [|exact H0].
  unfold google_search, try_except, requests_get_google, lift, ret.
  set (g := GoogleGet _ _ _ _).
  assert (H1 : exists tail,
             record (record h (TavilySearch q k)) g
             = (h ++ TavilySearch q k :: tail)%list
             /\ (tail = [] \/ tail = [g])).
  { exists [g]. split; [|now right]. unfold record.
    now rewrite <- app_assoc. }
  destruct (google_http env _ _ _ _ _) as [body|e]; simpl; [|exact H1].
  destruct (py_truthy body); [|exact H1].
  destruct (py_get body "items" (PList [])) as [results|e]; [|exact H1].
  destruct (py_truthy results); [|exact H1].
  destruct (py_iter results) as [rs|e]; exact H1.
Qed.

Lemma search_with_fallback_searched q k h :
  searched (snd (search_with_fallback env q k h)) = (searched h ++ [q])%list.
Proof.
  destruct (search_with_fallback_history q k h) as (tail & -> & [->| ->]);
    unfold searched; rewrite flat_map_app; reflexivity.
Qed.

End Resolver.

(** ** Claims about the search resolver *)

(** C4. When the primary provider answers with at least one result, each
    carrying its content, the resolver returns those contents, in order, and
    the history shows the single call of the primary provider: the secondary
    provider is not called. *)
Theorem primary_short_circuit (env : Env) (q : string) (k : Z) (h : history)
  (d : list (string * pyval)) (hits : list (list (string * pyval))) :
  tavily env h q k = Ok (PDict d) ->
  dict_lookup d "results" = Some (PList (map PDict hits)) ->
  (0 < List.length hits)%nat ->
  forallb (has_key "content") hits = true ->
  search_with_fallback env q k h
  = (Ok (map (field_or "content" PNone) hits), record h (TavilySearch q k))
  /\ filter is_google (snd (search_with_fallback env q k h))
     = filter is_google h.
Proof.
  intros Ht Hd Hlen Hall.
  assert (E : search_with_fallback env q k h
              = (Ok (map (field_or "content" PNone) hits),
                 record h (TavilySearch q k))).
  { unfold search_with_fallback, try_tavily, try_except, bind, tavily_search,
      lift, ret.
    rewrite Ht. simpl. rewrite Hd.
    destruct hits as [|hit hits]; [simpl in Hlen; lia|].
    cbn [py_truthy map py_iter].
    change (PDict hit :: map PDict hits) with (map PDict (hit :: hits)).
    now rewrite (comprehension_getitem "content" (hit :: hits) Hall). }
  split; [exact E|].
  rewrite E. unfold record. simpl. rewrite filter_app. simpl.
  apply app_nil_r.
Qed.

Lemma primary_short_circuit_witness :
  search_with_fallback env_live "cats" 2 []
  = (Ok [PStr "cats"; PStr "more"], [TavilySearch "cats" 2])
  /\ filter is_google (snd (search_with_fallback env_live "cats" 2 [])) = [].
Proof.
  apply (@primary_short_circuit env_live "cats" 2 []
           [("results", PList [PDict [("content", PStr "cats")];
                               PDict [("content", PStr "more")]])]
           [[("content", PStr "cats")]; [("content", PStr "more")]]).
  - reflexivity.
  - reflexivity.
  - simpl; lia.
  - reflexivity.
Defined.

(** The fallback on the answers that the resolver recognises.  When the
    primary provider fails or comes back without results: if the secondary
    provider is configured and answers with at least one item, the resolver
    returns the snippets of the items, as they are and in order; if the
    secondary provider is not configured, if its request fails, or if it
    comes back without items, the resolver returns the empty list and does
    not raise. *)
Theorem fallback_correct (env : Env) (q : string) (k : Z) (h : history) :
  failed_or_empty "results" (tavily env h q k) = true ->
  let h1 := record h (TavilySearch q k) in
  let answer :=
    google_http env h1 (GOOGLE_API_KEY env) (GOOGLE_CSE_ID env) q k in
  (forall d items,
      secondary_configured env = true ->
      answer = Ok (PDict d) ->
      dict_lookup d "items" = Some (PList (map PDict items)) ->
      (0 < List.length items)%nat ->
      search_with_fallback env q k h
      = (Ok (map (field_or "snippet" (PStr "")) items),
         record h1 (GoogleGet (GOOGLE_API_KEY env) (GOOGLE_CSE_ID env) q k)))
  /\ (secondary_configured env = false
      \/ failed_or_empty "items" answer = true ->
      fst (search_with_fallback env q k h) = Ok []).
Proof.
  intros Hp h1 answer.
  pose proof (try_tavily_fallthrough env q k h Hp) as Ht.
  split.
  - intros d items Hc Ha Hd Hlen.
    unfold search_with_fallback, bind. rewrite Ht.
    unfold secondary_configured in Hc. rewrite Hc.
    unfold google_search, try_except, requests_get_google, lift, ret.
    fold h1. fold answer. rewrite Ha.
    destruct d as [|b d]; [discriminate|].
    cbn [py_truthy py_get]. rewrite Hd.
    destruct items as [|item items]; [simpl in Hlen; lia|].
    cbn [py_truthy map py_iter].
    change (PDict item :: map PDict items) with (map PDict (item :: items)).
    now rewrite comprehension_get.
  - intros Hs.
    unfold search_with_fallback, bind. rewrite Ht.
    fold (secondary_configured env).
    destruct (secondary_configured env) eqn:Hc; [|reflexivity].
    destruct Hs as [Hs|Hs]; [discriminate|].
    unfold google_search, try_except, requests_get_google, lift, ret.
    fold h1. fold answer.
    destruct answer as [body|e]; [|reflexivity].
    simpl in Hs. destruct body as [| | | | |d]; try discriminate.
    destruct d as [|b d]; [reflexivity|].
    cbn [py_truthy py_get]. unfold empty_result_set in Hs.
    destruct (dict_lookup (b :: d) "items") as [[| | | |[|x l]|]|];
      try discriminate; reflexivity.
Qed.

Lemma fallback_correct_witness :
  search_with_fallback env_fallback "cats" 2 []
  = (Ok [PStr "cats"; PStr "second"],
     [TavilySearch "cats" 2; GoogleGet (Some "key") (Some "cx") "cats" 2])
  /\ fst (search_with_fallback env_down "cats" 2 []) = Ok [].
Proof.
  split.
  - apply (proj1 (@fallback_correct env_fallback "cats" 2 [] eq_refl)
             [("items", PList [PDict [("snippet", PStr "cats")];
                               PDict [("snippet", PStr "second")]])]
             [[("snippet", PStr "cats")]; [("snippet", PStr "second")]]).
    + reflexivity.
    + reflexivity.
    + reflexivity.
    + simpl; lia.
  - apply (proj2 (@fallback_correct env_down "cats" 2 [] eq_refl)).
    right. reflexivity.
Defined.

(** The two cases above are the failure and the emptiness that the resolver
    recognises.  A body of the secondary provider that parses but is not an
    object is neither: [google_search] hands it on, and the [get] on it
    raises outside any handler. *)
Example secondary_body_not_an_object :
  failed_or_empty "items"
    (google_http env_array_body [TavilySearch "cats" 2] (Some "key")
       (Some "cx") "cats" 2) = false
  /\ fst (search_with_fallback env_array_body "cats" 2 [])
     = Raise AttributeError.
Proof. split; reflexivity. Qed.

(** C3. The resolver does not keep the promise for a secondary provider that
    fails by a malformed answer.  When the primary provider has failed or
    come back without results and the secondary provider, configured,
    answers with a body that is truthy and not an object, the resolver does
    not return the empty list: the lookup of the items is made outside any
    handler, unlike the lookups on the answer of the primary provider, and
    its [AttributeError] reaches the caller, after both providers were
    called. *)
Theorem fallback_raises_on_malformed_secondary (env : Env) (q : string)
  (k : Z) (h : history) (body : pyval) :
  failed_or_empty "results" (tavily env h q k) = true ->
  secondary_configured env = true ->
  google_http env (record h (TavilySearch q k))
    (GOOGLE_API_KEY env) (GOOGLE_CSE_ID env) q k = Ok body ->
  py_truthy body = true ->
  is_object body = false ->
  search_with_fallback env q k h
  = (Raise AttributeError,
     record (record h (TavilySearch q k))
       (GoogleGet (GOOGLE_API_KEY env) (GOOGLE_CSE_ID env) q k)).
Proof.
  intros Hp Hc Hg Ht Ho.
  unfold search_with_fallback, bind.
  rewrite (try_tavily_fallthrough env q k h Hp).
  unfold secondary_configured in Hc. rewrite Hc.
  unfold google_search, try_except, requests_get_google, lift, ret.
  rewrite Hg, Ht.
  destruct body; try discriminate; reflexivity.
Qed.

Lemma fallback_raises_on_malformed_secondary_witness :
  search_with_fallback env_array_body "cats" 2 []
  = (Raise AttributeError,
     [TavilySearch "cats" 2; GoogleGet (Some "key") (Some "cx") "cats" 2]).
Proof.
  apply (@fallback_raises_on_malformed_secondary env_array_body "cats" 2 []
           (PList [PStr "unexpected"])).
  - reflexivity.
  - reflexivity.
  - reflexivity.
  - reflexivity.
  - reflexivity.
Defined.

(** The same with an object whose items are not objects: the [get] on the
    first item raises, outside any handler too. *)
Example secondary_items_not_objects :
  search_with_fallback env_bare_items "cats" 2 []
  = (Raise AttributeError,
     [TavilySearch "cats" 2; GoogleGet (Some "key") (Some "cx") "cats" 2]).
Proof. reflexivity. Qed.

(** By contrast the same malformed answers from the primary provider are
    caught: the resolver goes on to the secondary provider. *)
Example primary_malformed_is_caught :
  forall env q k h,
    tavily env h q k = Ok (PList [PStr "unexpected"]) ->
    try_tavily env q k h = (Ok None, record h (TavilySearch q k)).
Proof.
  intros env q k h H.
  unfold try_tavily, try_except, bind, tavily_search, lift, ret.
  now rewrite H.
Qed.

(** C7, as the code has it. The resolver hands [max_results] to the providers
    and returns one snippet for each result of the provider that answered,
    cutting nothing off: for [max_results >= 0] and providers that return at
    most [max_results] results, the list it returns has at most
    [max_results] elements. *)
Theorem resolver_length_bound (env : Env) (q : string) (k : Z) (h : history)
  (l : list pyval) :
  0 <= k ->
  within "results" k (tavily env h q k) = true ->
  within "items" k
    (google_http env (record h (TavilySearch q k))
       (GOOGLE_API_KEY env) (GOOGLE_CSE_ID env) q k) = true ->
  fst (search_with_fallback env q k h) = Ok l ->
  0 <= Z.of_nat (List.length l) <= k.
Proof.
  intros Hk Hp Hs.
  unfold search_with_fallback, bind.
  pose proof (try_tavily_history env q k h) as Hh.
  pose proof (try_tavily_found env q k h) as Hf.
  destruct (try_tavily_never_raises env q k h) as [found Hn].
  destruct (try_tavily env q k h) as [r h1]. simpl in Hh, Hf, Hn. subst r h1.
  destruct found as [snippets|].
  - simpl. intros H. inversion H; subst.
    destruct (Hf l eq_refl) as (d & rs & Ht & Hd & Hlen).
    rewrite Ht in Hp. simpl in Hp. rewrite Hd in Hp.
    rewrite Hlen. lia.
  - clear Hf Hp.
    destruct (configured _ && configured _);
      [|simpl; intros H; inversion H; simpl; lia].
    unfold google_search, try_except, requests_get_google, lift, ret.
    destruct (google_http env _ _ _ _ _) as [body|e];
      [|simpl; intros H; inversion H; simpl; lia].
    destruct (py_truthy body) eqn:Hb;
      [|simpl; intros H; inversion H; simpl; lia].
    destruct body as [| | | | |d]; simpl; try discriminate.
    simpl in Hs.
    destruct (dict_lookup d "items") as [results|] eqn:Hd;
      [|simpl; intros H; inversion H; simpl; lia].
    destruct (py_truthy results) eqn:Ht;
      [|simpl; intros H; inversion H; simpl; lia].
    destruct (py_iter results) as [rs|e] eqn:Hi; [|discriminate].
    simpl. intros Hc.
    assert (results = PList rs) as ->.
    { eapply comprehension_over_list; eauto. intros s. now eexists. }
    rewrite (comprehension_length _ _ Hc). lia.
Qed.

Lemma resolver_length_bound_witness :
  0 <= Z.of_nat (List.length [PStr "cats"; PStr "more"]) <= 2.
Proof.
  apply (@resolver_length_bound env_live "cats" 2 []).
  - lia.
  - reflexivity.
  - reflexivity.
  - reflexivity.
Defined.

(** C7, as stated, fails: with both providers down and [max_results = -1]
    the resolver returns the empty list, whose length is above -1; and a
    primary provider that returns three results when asked for two has all
    three returned. *)
Lemma resolver_length_unbounded :
  (fst (search_with_fallback env_down "cats" (-1) []) = Ok []
   /\ ~ (0 <= Z.of_nat (List.length (@nil pyval)) <= -1))
  /\ (fst (search_with_fallback env_generous "cats" 2 [])
      = Ok [PStr "a"; PStr "b"; PStr "c"]
      /\ ~ (0 <= Z.of_nat (List.length [PStr "a"; PStr "b"; PStr "c"]) <= 2)).
Proof.
  repeat split; try reflexivity; simpl; lia.
Qed.

(** ** The stage functions *)

Lemma set_content_same s : set_content (content s) s = s.
Proof. now destruct s. Qed.

Lemma set_content_twice c1 c2 s :
  set_content c2 (set_content c1 s) = set_content c2 s.
Proof. reflexivity. Qed.

Section Stages.

Variable env : Env.

(** One round of the search loop. *)
Lemma search_queries_cons shared q rest c w :
  search_queries env shared (q :: rest) c w
  = match search_with_fallback env q 2 (past w) with
    | (Ok results, h1) =>
        search_queries env shared rest (c ++ results)
          {| store := if shared then set_content (c ++ results) (store w)
                      else store w;
             past := h1 |}
    | (Raise e, h1) => (Raise e, {| store := store w; past := h1 |})
    end.
Proof.
  cbn [search_queries]. unfold bind, in_world.
  destruct (search_with_fallback env q 2 (past w)) as [[results|e] h1];
    [|reflexivity].
  destruct shared; reflexivity.
Qed.

(** The search loop: what it leaves in the state object it shares, which
    queries it hands to the resolver, and the list it returns. *)
Lemma search_queries_effect shared qs : forall c w,
  (shared = true -> content (store w) = c) ->
  exists added k,
    (k <= List.length qs)%nat
    /\ store (snd (search_queries env shared qs c w))
       = (if shared then set_content (c ++ added) (store w) else store w)
    /\ searched (past (snd (search_queries env shared qs c w)))
       = (searched (past w) ++ firstn k qs)%list
    /\ (forall c', fst (search_queries env shared qs c w) = Ok c' ->
                   c' = (c ++ added)%list /\ k = List.length qs).
Proof.
  induction qs as [|q rest IH]; intros c w Hc.
  - exists [], 0%nat. simpl. rewrite !app_nil_r. repeat split; auto.
    + destruct shared; [|reflexivity].
      rewrite <- (Hc eq_refl). now rewrite set_content_same.
    + unfold ret in H. simpl in H. now inversion H.
  - rewrite search_queries_cons.
    pose proof (search_with_fallback_searched env q 2 (past w)) as Hq.
    destruct (search_with_fallback env q 2 (past w)) as [[results|e] h1];
      simpl in Hq.
    + set (w2 := {| store := _; past := h1 |}).
      destruct (IH (c ++ results)%list w2) as (added & k & Hk & Hst & Hse & Hok).
      { intros ->. reflexivity. }
      exists (results ++ added)%list, (S k). rewrite app_assoc.
      repeat split.
      * simpl. lia.
      * rewrite Hst. now destruct shared.
      * rewrite Hse. simpl. rewrite Hq. now rewrite <- app_assoc.
      * now apply Hok.
      * simpl. f_equal. now apply (Hok c').
    + exists [], 1%nat. simpl. rewrite app_nil_r. repeat split.
      * lia.
      * destruct shared; [|reflexivity].
        rewrite <- (Hc eq_refl). now rewrite set_content_same.
      * exact Hq.
      * discriminate.
      * discriminate.
Qed.

(** With a resolver that always returns strings the loop returns, and keeps
    the content a list of strings. *)
Lemma search_queries_succeeds shared qs :
  searches_succeed env ->
  forall c w, all_strings c = true ->
  exists c', fst (search_queries env shared qs c w) = Ok c'
             /\ all_strings c' = true.
Proof.
  intros Hs. induction qs as [|q rest IH]; intros c w Hc.
  - exists c. now split.
  - rewrite search_queries_cons.
    destruct (Hs (past w) q 2) as (l & Hl & Hstr).
    destruct (search_with_fallback env q 2 (past w)) as [r h1].
    simpl in Hl. subst r.
    apply IH. rewrite all_strings_app, Hc, Hstr. reflexivity.
Qed.

Lemma research_plan_is_stage :
  research_plan_node env = research_stage env (research_messages research_plan).
Proof. reflexivity. Qed.

Lemma research_critique_is_stage :
  research_critique_node env
  = research_stage env (research_messages research_critique).
Proof. reflexivity. Qed.

Lemma research_node_is_stage n :
  is_research n = true ->
  node_function env n = research_stage env (research_messages n).
Proof. destruct n; try discriminate; reflexivity. Qed.

(** A research stage, step by step. *)
Lemma research_stage_cases messages w :
  let msgs := messages (store w) in
  let w1 := posted msgs w in
  match mistral_http env (past w) (prompt_of msgs) with
  | Raise e => research_stage env messages w = (Raise e, w1)
  | Ok body =>
      match completion_text body with
      | Raise e => research_stage env messages w = (Raise e, w1)
      | Ok text =>
          match parse_queries text with
          | Raise e => research_stage env messages w = (Raise e, w1)
          | Ok queries =>
              let loop := search_queries env (shares_content (store w))
                            (firstn 3 queries) (content (store w)) w1 in
              research_stage env messages w
              = (match fst loop with
                 | Ok c =>
                     Ok {| u_task := None; u_plan := None; u_draft := None;
                           u_critique := None; u_content := Some c;
                           u_revision_number := None;
                           u_max_revisions := None |}
                 | Raise e => Raise e
                 end, snd loop)
          end
      end
  end.
Proof.
  intros msgs w1.
  unfold research_stage, bind, get_state, call_mistral_api, in_world, lift, ret.
  fold msgs. fold (posted msgs w). fold w1.
  destruct (mistral_http env (past w) (prompt_of msgs)) as [body|e];
    [|reflexivity].
  destruct (completion_text body) as [text|e]; [|reflexivity].
  destruct (parse_queries text) as [queries|e]; [|reflexivity].
  cbv zeta.
  destruct (search_queries env _ _ _ w1) as [[c|e] w2]; reflexivity.
Qed.

(** A stage with a single completion and no search, step by step:
    [finish] builds the update from the text. *)
Lemma completion_stage_cases n w msgs :
  is_research n = false ->
  request_of n (store w) = Ok msgs ->
  let w1 := posted msgs w in
  match mistral_http env (past w) (prompt_of msgs) with
  | Raise e => node_function env n w = (Raise e, w1)
  | Ok body =>
      match completion_text body with
      | Raise e => node_function env n w = (Raise e, w1)
      | Ok text =>
          exists u, node_function env n w = (Ok u, w1)
                    /\ u_task u = None /\ u_max_revisions u = None
                    /\ u_content u = None
                    /\ u_revision_number u
                       = (if node_eqb n generate
                          then Some (or_else (revision_number (store w)) 1 + 1)
                          else None)
                    /\ (node_eqb n generate = true -> u_draft u = Some text)
      end
  end.
Proof.
  intros Hn Hreq w1.
  destruct n; try discriminate; unfold request_of in Hreq.
  - inversion Hreq; subst msgs.
    unfold node_function, plan_node, bind, get_state, call_mistral_api,
      in_world, lift, ret.
    destruct (mistral_http env (past w) _) as [body|e]; [|reflexivity].
    destruct (completion_text body) as [text|e]; [|reflexivity].
    eexists. split; [reflexivity|]. simpl.
    repeat split; try reflexivity; intros; discriminate.
  - destruct (join (nl ++ nl) (content (store w))) as [c|e] eqn:Hj;
      [|discriminate].
    inversion Hreq; subst msgs.
    unfold node_function, generation_node, bind, get_state, call_mistral_api,
      in_world, lift, ret.
    cbv zeta. rewrite Hj.
    destruct (mistral_http env (past w) _) as [body|e]; [|reflexivity].
    destruct (completion_text body) as [text|e]; [|reflexivity].
    eexists. split; [reflexivity|]. simpl. repeat split; reflexivity.
  - inversion Hreq; subst msgs.
    unfold node_function, reflection_node, bind, get_state, call_mistral_api,
      in_world, lift, ret.
    destruct (mistral_http env (past w) _) as [body|e]; [|reflexivity].
    destruct (completion_text body) as [text|e]; [|reflexivity].
    eexists. split; [reflexivity|]. simpl.
    repeat split; try reflexivity; intros; discriminate.
Qed.

(** The Generate stage raises before any request when the content does not
    join. *)
Lemma request_raises n w e :
  request_of n (store w) = Raise e ->
  node_function env n w = (Raise e, w).
Proof.
  destruct n; unfold request_of; try discriminate.
  destruct (join (nl ++ nl) (content (store w))) as [c|e'] eqn:Hj;
    [discriminate|].
  intros H; inversion H; subst.
  unfold node_function, generation_node, bind, get_state, lift.
  now rewrite Hj.
Qed.

Lemma research_request n s :
  is_research n = true -> request_of n s = Ok (research_messages n s).
Proof. destruct n; try discriminate; reflexivity. Qed.

End Stages.

(** What any stage does to the state object it is handed, and what the
    update it returns holds. *)
Lemma stage_effect (env : Env) (n : node) (w : Machine) :
  exists in_place,
    store (snd (node_function env n w))
    = set_content (content (store w) ++ in_place) (store w)
    /\ forall u, fst (node_function env n w) = Ok u ->
         u_task u = None
         /\ u_max_revisions u = None
         /\ (exists added,
                content (apply_update u (store (snd (node_function env n w))))
                = (content (store w) ++ added)%list)
         /\ u_revision_number u
            = (if node_eqb n generate
               then Some (or_else (revision_number (store w)) 1 + 1)
               else None).
Proof.
  assert (Hsame : store w = set_content (content (store w) ++ []) (store w)).
  { now rewrite app_nil_r, set_content_same. }
  destruct (is_research n) eqn:Hn.
  - assert (Hg : node_eqb n generate = false) by (now destruct n).
    rewrite Hg. rewrite (research_node_is_stage env n Hn).
    pose proof (research_stage_cases env (research_messages n) w) as H.
    cbv zeta in H.
    destruct (mistral_http env (past w) _) as [body|e];
      [|rewrite H; exists []; split; [exact Hsame|discriminate]].
    destruct (completion_text body) as [text|e];
      [|rewrite H; exists []; split; [exact Hsame|discriminate]].
    destruct (parse_queries text) as [queries|e];
      [|rewrite H; exists []; split; [exact Hsame|discriminate]].
    rewrite H. clear H.
    set (w1 := posted (research_messages n (store w)) w).
    destruct (@search_queries_effect env (shares_content (store w))
                (firstn 3 queries) (content (store w)) w1 (fun _ => eq_refl))
      as (added & k & _ & Hst & _ & Hok).
    exists (if shares_content (store w) then added else []).
    cbn [fst snd]. split.
    + rewrite Hst. now destruct (shares_content (store w)).
    + intros u Hu.
      destruct (fst (search_queries env _ _ _ w1)) as [c|e] eqn:Hf;
        [|discriminate].
      destruct (Hok c eq_refl) as [-> _].
      inversion Hu; subst u. cbn.
      repeat split. now exists added.
  - destruct (request_of n (store w)) as [msgs|e] eqn:Hreq.
    + pose proof (completion_stage_cases env n w Hn Hreq) as H.
      cbv zeta in H.
      destruct (mistral_http env (past w) _) as [body|e];
        [|rewrite H; exists []; split; [exact Hsame|discriminate]].
      destruct (completion_text body) as [text|e];
        [|rewrite H; exists []; split; [exact Hsame|discriminate]].
      destruct H as (u0 & -> & Ht & Hm & Hc & Hr & _).
      exists []. split; [exact Hsame|].
      cbn [fst snd]. intros u Hu. inversion Hu; subst u0.
      repeat split; try assumption.
      exists []. unfold apply_update. cbn. rewrite Hc. cbn.
      now rewrite app_nil_r.
    + rewrite (request_raises env n w Hreq).
      exists []. split; [exact Hsame|discriminate].
Qed.

(** ** One turn of the graph *)

(** A turn, case by case. *)
Lemma step_cases (env : Env) (n : node) (w : Machine) :
  match node_function env n w with
  | (Raise e, w') => step env n w = Failed e w'
  | (Ok u, w') =>
      let w'' := set_store (apply_update u (store w')) w' in
      match successor n (store w'') with
      | Raise e => step env n w = Failed e w''
      | Ok END => step env n w = Stopped w''
      | Ok (goto n') => step env n w = Next n' w''
      end
  end.
Proof.
  unfold step. destruct (node_function env n w) as [[u|e] w']; [|reflexivity].
  cbv zeta. destruct (successor n _) as [[|n']|e]; reflexivity.
Qed.

Lemma step_machine (env : Env) (n : node) (w : Machine) :
  exists in_place,
    match node_function env n w with
    | (Raise _, w') =>
        machine_of (step env n w) = w'
        /\ store w' = set_content (content (store w) ++ in_place) (store w)
    | (Ok u, w') =>
        machine_of (step env n w) = set_store (apply_update u (store w')) w'
        /\ store w' = set_content (content (store w) ++ in_place) (store w)
        /\ u_task u = None
        /\ u_max_revisions u = None
        /\ (exists added,
               content (apply_update u (store w'))
               = (content (store w) ++ added)%list)
        /\ u_revision_number u
           = (if node_eqb n generate
              then Some (or_else (revision_number (store w)) 1 + 1)
              else None)
    end.
Proof.
  destruct (stage_effect env n w) as (in_place & Hst & Hu).
  exists in_place. pose proof (step_cases env n w) as Hs.
  destruct (node_function env n w) as [[u|e] w']; cbn [fst snd] in *.
  - destruct (Hu u eq_refl) as (Ht & Hm & Hc & Hr).
    repeat split; try assumption.
    cbv zeta in Hs.
    destruct (successor n _) as [[|n']|e]; now rewrite Hs.
  - now rewrite Hs.
Qed.

(** ** Claims about the stages *)

(** C9. No stage touches the topic or the revision ceiling: the state object
    it was handed keeps both, whether the stage returns or raises, the update
    it returns holds neither key, and the state after the update is written
    has both as before. *)
Theorem task_and_ceiling_untouched (env : Env) (n : node) (w : Machine) :
  task (store (snd (node_function env n w))) = task (store w)
  /\ max_revisions (store (snd (node_function env n w)))
     = max_revisions (store w)
  /\ match fst (node_function env n w) with
     | Raise _ => True
     | Ok u =>
         u_task u = None
         /\ u_max_revisions u = None
         /\ task (apply_update u (store (snd (node_function env n w))))
            = task (store w)
         /\ max_revisions
              (apply_update u (store (snd (node_function env n w))))
            = max_revisions (store w)
     end.
Proof.
  destruct (stage_effect env n w) as (in_place & Hst & Hu).
  rewrite Hst. split; [reflexivity|]. split; [reflexivity|].
  destruct (fst (node_function env n w)) as [u|e]; [|exact I].
  destruct (Hu u eq_refl) as (Ht & Hm & _).
  unfold apply_update. cbn. rewrite Ht, Hm. repeat split.
Qed.

(** C10. A stage whose completion request raises raises the same exception,
    leaves the state object as it was and returns no update: the turn of the
    graph fails with the state unchanged, and the one thing that happened
    outside is the request. *)
Theorem completion_failure_atomic (env : Env) (n : node) (w : Machine)
  (msgs : list message) (e : exn) :
  request_of n (store w) = Ok msgs ->
  mistral_http env (past w) (prompt_of msgs) = Raise e ->
  node_function env n w = (Raise e, posted msgs w)
  /\ step env n w = Failed e (posted msgs w)
  /\ store (machine_of (step env n w)) = store w
  /\ past (machine_of (step env n w))
     = record (past w) (MistralPost (prompt_of msgs)).
Proof.
  intros Hreq Hraise.
  assert (E : node_function env n w = (Raise e, posted msgs w)).
  { destruct (is_research n) eqn:Hn.
    - rewrite (research_request n (store w) Hn) in Hreq.
      inversion Hreq; subst msgs.
      rewrite (research_node_is_stage env n Hn).
      pose proof (research_stage_cases env (research_messages n) w) as H.
      cbv zeta in H. now rewrite Hraise in H.
    - pose proof (completion_stage_cases env n w Hn Hreq) as H.
      cbv zeta in H. now rewrite Hraise in H. }
  assert (S : step env n w = Failed e (posted msgs w)).
  { unfold step. now rewrite E. }
  rewrite S. repeat split; assumption.
Qed.

Lemma completion_failure_atomic_witness :
  node_function env_down research_plan sample_machine
  = (Raise HTTPError,
     posted (research_messages research_plan sample_state) sample_machine)
  /\ step env_down research_plan sample_machine
     = Failed HTTPError
         (posted (research_messages research_plan sample_state) sample_machine)
  /\ store (machine_of (step env_down research_plan sample_machine))
     = sample_state
  /\ past (machine_of (step env_down research_plan sample_machine))
     = [MistralPost
          (prompt_of (research_messages research_plan sample_state))].
Proof.
  apply (@completion_failure_atomic env_down research_plan sample_machine
           (research_messages research_plan sample_state) HTTPError).
  - reflexivity.
  - reflexivity.
Defined.

Lemma step_content (env : Env) (n : node) (w : Machine) :
  prefix (content (store w)) (content (store (machine_of (step env n w)))).
Proof.
  destruct (step_machine env n w) as (in_place & H).
  destruct (node_function env n w) as [[u|e] w'].
  - destruct H as (-> & _ & _ & _ & (added & Hc) & _).
    unfold set_store. cbn [store]. rewrite Hc. apply prefix_app.
  - destruct H as (-> & ->). cbn [set_content content]. apply prefix_app.
Qed.

Lemma append_only_weaken c c' vs :
  prefix c' c -> append_only c vs -> append_only c' vs.
Proof.
  destruct vs as [|v rest]; [trivial|].
  intros Hp (H1 & H2 & H3). repeat split; try assumption.
  eapply prefix_trans; eassumption.
Qed.

(** Along an append-only run the content after a visit is a prefix of the
    content after every later visit. *)
Lemma append_only_later c l1 v1 l2 v2 l3 :
  append_only c (l1 ++ v1 :: l2 ++ v2 :: l3) ->
  prefix (content (after v1)) (content (after v2)).
Proof.
  revert c. induction l1 as [|v l1 IH]; intros c.
  - cbn [app append_only]. intros (_ & _ & H). clear c.
    revert H. generalize (content (after v1)) as c.
    induction l2 as [|v l2 IH2]; intros c.
    + cbn [app append_only]. intros (H1 & H2 & _).
      eapply prefix_trans; eassumption.
    + cbn [app append_only]. intros (H1 & H2 & H3).
      apply IH2. eapply append_only_weaken; [|exact H3].
      eapply prefix_trans; eassumption.
  - cbn [app append_only]. intros (_ & _ & H). now apply (IH _ H).
Qed.

Lemma invoke_from_append_only (env : Env) (fuel : nat) :
  forall n w,
    append_only (content (store w)) (visits (invoke_from env fuel n w))
    /\ prefix (content (store w))
              (content (store (final (invoke_from env fuel n w)))).
Proof.
  induction fuel as [|fuel IH]; intros n w.
  - split; [exact I|apply prefix_refl].
  - cbn [invoke_from]. pose proof (step_content env n w) as Hs.
    destruct (step env n w) as [w'|n' w'|e w']; cbn in Hs |- *.
    + repeat split; try assumption; apply prefix_refl.
    + destruct (IH n' w') as [Ha Hf]. repeat split; try assumption.
      * apply prefix_refl.
      * eapply prefix_trans; eassumption.
    + split; [exact I|assumption].
Qed.

(** C5. The content only grows at its end.  After any turn of the graph,
    whether the stage returned or raised, the content it started from is a
    prefix of the content it leaves, so the length does not go down; and
    along any run from any stage the visits form an append-only chain that
    starts from the initial content and ends in the final one. *)
Theorem content_append_only (env : Env) (n : node) (w : Machine) (fuel : nat) :
  prefix (content (store w)) (content (store (machine_of (step env n w))))
  /\ (List.length (content (store w))
      <= List.length (content (store (machine_of (step env n w)))))%nat
  /\ append_only (content (store w)) (visits (invoke_from env fuel n w))
  /\ prefix (content (store w))
            (content (store (final (invoke_from env fuel n w)))).
Proof.
  pose proof (step_content env n w) as Hs.
  destruct (invoke_from_append_only env fuel n w) as [Ha Hf].
  repeat split; try assumption.
  now apply prefix_length.
Qed.

(** The comprehension of the code and the pipeline of the specification give
    the same list. *)
Lemma queries_of_refines text : queries_of text = trimmed_nonempty_lines text.
Proof.
  unfold queries_of, trimmed_nonempty_lines.
  induction (split_newline text) as [|q l IH]; [reflexivity|].
  cbn [flat_map map filter]. rewrite IH.
  now destruct (nonempty (strip q)).
Qed.

Lemma searched_posted msgs w : searched (past (posted msgs w)) = searched (past w).
Proof.
  unfold posted, record, searched. cbn. rewrite flat_map_app. cbn.
  apply app_nil_r.
Qed.

(** C6. In both research stages, on a completion whose text is a string:
    the queries are the trimmed, non-empty lines of the text; the queries
    handed to the resolver are the first [k] of them, in order, for some
    [k <= 3], and the first three of them when the stage returns; and when
    there is no such line the stage returns its content as it was, having
    made the completion request and nothing else. *)
Theorem research_queries (env : Env) (n : node) (w : Machine)
  (body : pyval) (text : string) :
  is_research n = true ->
  mistral_http env (past w) (prompt_of (research_messages n (store w)))
  = Ok body ->
  completion_text body = Ok (PStr text) ->
  queries_of text = trimmed_nonempty_lines text
  /\ (exists k,
        (k <= 3)%nat
        /\ searched (past (snd (node_function env n w)))
           = (searched (past w) ++ firstn k (trimmed_nonempty_lines text))%list
        /\ match fst (node_function env n w) with
           | Ok _ =>
               searched (past (snd (node_function env n w)))
               = (searched (past w)
                  ++ firstn 3 (trimmed_nonempty_lines text))%list
           | Raise _ => True
           end)
  /\ match trimmed_nonempty_lines text with
     | [] =>
         node_function env n w
         = (Ok {| u_task := None; u_plan := None; u_draft := None;
                  u_critique := None; u_content := Some (content (store w));
                  u_revision_number := None; u_max_revisions := None |},
            posted (research_messages n (store w)) w)
     | _ => True
     end.
Proof.
  intros Hn Hb Ht.
  split; [apply queries_of_refines|].
  rewrite (research_node_is_stage env n Hn).
  pose proof (research_stage_cases env (research_messages n) w) as H.
  cbv zeta in H. rewrite Hb, Ht in H. cbn [parse_queries] in H.
  rewrite queries_of_refines in H. rewrite H. clear H.
  set (qs := trimmed_nonempty_lines text).
  set (w1 := posted (research_messages n (store w)) w).
  split.
  - destruct (@search_queries_effect env (shares_content (store w))
                (firstn 3 qs) (content (store w)) w1 (fun _ => eq_refl))
      as (added & k & Hk & _ & Hse & Hok).
    assert (Hk3 : (k <= 3)%nat).
    { rewrite length_firstn in Hk. lia. }
    exists k. cbn [fst snd]. split; [exact Hk3|].
    rewrite Hse.
    replace (searched (past w1)) with (searched (past w))
      by (symmetry; apply searched_posted).
    rewrite firstn_firstn. replace (Nat.min k 3) with k by lia.
    split; [reflexivity|].
    destruct (fst (search_queries env _ _ _ w1)) as [c|e] eqn:Hf; [|exact I].
    destruct (Hok c eq_refl) as [_ ->].
    now rewrite length_firstn, <- firstn_firstn, firstn_all.
  - destruct qs; [reflexivity|exact I].
Qed.

(** Five lines in the completion: the first three are searched, and their
    snippets follow the old content in that order. *)
Example five_queries_three_searched :
  searched (past (snd (node_function env_wordy research_plan sample_machine)))
  = ["one"; "two"; "three"]
  /\ fst (node_function env_wordy research_plan sample_machine)
     = Ok {| u_task := None; u_plan := None; u_draft := None;
             u_critique := None;
             u_content := Some [PStr "old"; PStr "one"; PStr "two";
                                PStr "three"];
             u_revision_number := None; u_max_revisions := None |}.
Proof. split; reflexivity. Qed.

(** An empty completion: no query, no search, the content as it was. *)
Example no_query_no_search :
  node_function env_fallback research_critique sample_machine
  = (Ok {| u_task := None; u_plan := None; u_draft := None;
           u_critique := None; u_content := Some [PStr "old"];
           u_revision_number := None; u_max_revisions := None |},
     posted (research_messages research_critique sample_state) sample_machine).
Proof. reflexivity. Qed.

Lemma research_queries_witness :
  queries_of ("alpha" ++ nl ++ " beta " ++ nl ++ nl ++ "gamma")
  = trimmed_nonempty_lines ("alpha" ++ nl ++ " beta " ++ nl ++ nl ++ "gamma")
  /\ (exists k,
        (k <= 3)%nat
        /\ searched (past (snd (node_function env_live research_critique
                                              sample_machine)))
           = (searched (past sample_machine)
              ++ firstn k (trimmed_nonempty_lines
                             ("alpha" ++ nl ++ " beta " ++ nl ++ nl ++ "gamma")))%list
        /\ match fst (node_function env_live research_critique sample_machine)
           with
           | Ok _ =>
               searched (past (snd (node_function env_live research_critique
                                                  sample_machine)))
               = (searched (past sample_machine)
                  ++ firstn 3 (trimmed_nonempty_lines
                                 ("alpha" ++ nl ++ " beta " ++ nl ++ nl
                                  ++ "gamma")))%list
           | Raise _ => True
           end)
  /\ match trimmed_nonempty_lines
             ("alpha" ++ nl ++ " beta " ++ nl ++ nl ++ "gamma")
     with
     | [] =>
         node_function env_live research_critique sample_machine
         = (Ok {| u_task := None; u_plan := None; u_draft := None;
                  u_critique := None;
                  u_content := Some (content (store sample_machine));
                  u_revision_number := None; u_max_revisions := None |},
            posted (research_messages research_critique
                      (store sample_machine)) sample_machine)
     | _ => True
     end.
Proof.
  apply (@research_queries env_live research_critique sample_machine
           (completion_body ("alpha" ++ nl ++ " beta " ++ nl ++ nl ++ "gamma"))
           ("alpha" ++ nl ++ " beta " ++ nl ++ nl ++ "gamma")).
  - reflexivity.
  - reflexivity.
  - reflexivity.
Defined.

(** ** The run *)

Section Run.

Variable env : Env.

(** What a completed turn leaves of the two counters. *)
Lemma step_counters n w :
  match step env n w with
  | Failed _ _ => True
  | Stopped w' | Next _ w' =>
      max_revisions (store w') = max_revisions (store w)
      /\ revision_number (store w')
         = (if node_eqb n generate
            then Some (or_else (revision_number (store w)) 1 + 1)
            else revision_number (store w))
  end.
Proof.
  destruct (step_machine env n w) as (in_place & H).
  pose proof (step_cases env n w) as Hs.
  destruct (node_function env n w) as [[u|e] w'].
  - destruct H as (_ & Hst & _ & Hm & _ & Hr). cbv zeta in Hs.
    assert (Hmax : max_revisions (apply_update u (store w'))
                   = max_revisions (store w)).
    { unfold apply_update. cbn. rewrite Hm, Hst. reflexivity. }
    assert (Hrev : revision_number (apply_update u (store w'))
                   = (if node_eqb n generate
                      then Some (or_else (revision_number (store w)) 1 + 1)
                      else revision_number (store w))).
    { unfold apply_update. cbn. rewrite Hr, Hst.
      now destruct (node_eqb n generate). }
    destruct (successor n _) as [[|n']|e]; rewrite Hs; cbn [store set_store];
      auto.
  - now rewrite Hs.
Qed.

(** The successor that a completed turn picked. *)
Lemma step_successor n w :
  match step env n w with
  | Failed _ _ => True
  | Stopped w' => successor n (store w') = Ok END
  | Next n' w' => successor n (store w') = Ok (goto n')
  end.
Proof.
  pose proof (step_cases env n w) as Hs.
  destruct (node_function env n w) as [[u|e] w'].
  - cbv zeta in Hs.
    destruct (successor n _) as [[|n']|e] eqn:E; rewrite Hs;
      cbn [store set_store]; auto.
  - now rewrite Hs.
Qed.

(** With completions and searches that succeed, a turn on a content of
    strings does not fail and leaves a content of strings. *)
Lemma step_succeeds n w :
  completions_succeed env ->
  searches_succeed env ->
  all_strings (content (store w)) = true ->
  (n = generate -> revision_number (store w) <> None) ->
  (forall e w', step env n w <> Failed e w')
  /\ all_strings (content (store (machine_of (step env n w)))) = true.
Proof.
  intros Hc Hs Hstr Hrev.
  assert (Hnode : exists u w',
             node_function env n w = (Ok u, w')
             /\ all_strings (content (apply_update u (store w'))) = true
             /\ (n = generate -> u_revision_number u <> None)).
  { destruct (is_research n) eqn:Hn.
    - rewrite (research_node_is_stage env n Hn).
      pose proof (research_stage_cases env (research_messages n) w) as H.
      cbv zeta in H.
      destruct (Hc (past w) (prompt_of (research_messages n (store w))))
        as (body & t & Hb & Ht).
      rewrite Hb, Ht in H. cbn [parse_queries] in H. rewrite H.
      destruct (@search_queries_succeeds env (shares_content (store w))
                  (firstn 3 (queries_of t)) Hs (content (store w))
                  (posted (research_messages n (store w)) w) Hstr)
        as (c' & Hf & Hc').
      rewrite Hf. do 2 eexists. split; [reflexivity|]. split.
      + exact Hc'.
      + intros ->. discriminate.
    - destruct (request_of n (store w)) as [msgs|e] eqn:Hreq.
      + pose proof (completion_stage_cases env n w Hn Hreq) as H.
        cbv zeta in H.
        destruct (Hc (past w) (prompt_of msgs)) as (body & t & Hb & Ht).
        rewrite Hb, Ht in H.
        destruct H as (u & -> & _ & _ & Hco & Hr & _).
        exists u, (posted msgs w). split; [reflexivity|]. split.
        * unfold apply_update. cbn. now rewrite Hco.
        * intros ->. rewrite Hr. discriminate.
      + exfalso. destruct n; try discriminate. unfold request_of in Hreq.
        destruct (join_strings (nl ++ nl) (content (store w)) Hstr) as [s Hj].
        now rewrite Hj in Hreq. }
  destruct Hnode as (u & w' & Hnf & Hall & Hu).
  pose proof (step_cases env n w) as Hst. rewrite Hnf in Hst. cbv zeta in Hst.
  assert (Hsucc : exists t, successor n (apply_update u (store w')) = Ok t).
  { destruct n; try (now eexists). unfold successor, should_continue.
    unfold apply_update at 1. cbn [revision_number].
    destruct (u_revision_number u) as [r|] eqn:Hr.
    - destruct (r >? _); now eexists.
    - now destruct (Hu eq_refl). }
  destruct Hsucc as [t Ht]. cbn [store set_store] in Hst. rewrite Ht in Hst.
  destruct t as [|n']; rewrite Hst; (split; [discriminate|exact Hall]).
Qed.

Lemma generations_aborted e w :
  generations {| visits := []; how := Aborted e; final := w |} = [].
Proof. reflexivity. Qed.

(** A turn along a fixed edge [n -> n'], for a stage other than Generate:
    the run either aborts there or goes on from [n'] with both counters as
    they were. *)
Lemma fixed_edge_turn n n' fuel w :
  node_eqb n generate = false ->
  (forall s, successor n s = Ok (goto n')) ->
  (exists e w',
      step env n w = Failed e w'
      /\ invoke_from env (S fuel) n w
         = {| visits := []; how := Aborted e; final := w' |})
  \/ (exists w',
         step env n w = Next n' w'
         /\ max_revisions (store w') = max_revisions (store w)
         /\ revision_number (store w') = revision_number (store w)
         /\ how (invoke_from env (S fuel) n w) = how (invoke_from env fuel n' w')
         /\ generations (invoke_from env (S fuel) n w)
            = generations (invoke_from env fuel n' w')).
Proof.
  intros Hn Hedge.
  pose proof (step_counters n w) as Hc.
  pose proof (step_successor n w) as Hs.
  cbn [invoke_from].
  destruct (step env n w) as [w'|n'' w'|e w'].
  - rewrite Hedge in Hs. discriminate.
  - right. rewrite Hedge in Hs. inversion Hs; subst n''.
    rewrite Hn in Hc. destruct Hc as [Hm Hr].
    exists w'. repeat split; try assumption.
    unfold generations. cbn [visits filter at_node]. now rewrite Hn.
  - left. now exists e, w'.
Qed.

(** The loop from Generate: with the counter at [r] and [d] revisions left,
    a run with enough fuel ends, after at most [d + 1] Generate visits that
    each add one to the counter; it ends in the terminal state only after
    exactly [d + 1] of them, and it does end there when completions and
    searches succeed. *)
Lemma generate_loop (d : nat) :
  forall fuel w r,
    revision_number (store w) = Some r ->
    Z.to_nat (max_revisions (store w) - r) = d ->
    (3 * d + 1 <= fuel)%nat ->
    how (invoke_from env fuel generate w) <> OutOfFuel
    /\ (exists k,
           generations (invoke_from env fuel generate w) = increments k r
           /\ (k <= d + 1)%nat
           /\ (how (invoke_from env fuel generate w) = Finished -> k = (d + 1)%nat))
    /\ (completions_succeed env -> searches_succeed env ->
        all_strings (content (store w)) = true ->
        how (invoke_from env fuel generate w) = Finished).
Proof.
  induction d as [|d IH]; intros fuel w r Hr Hd Hfuel.
  - destruct fuel as [|fuel]; [lia|]. cbn [invoke_from].
    pose proof (step_counters generate w) as Hc.
    pose proof (step_successor generate w) as Hs.
    pose proof (@step_succeeds generate w) as Hok.
    destruct (step env generate w) as [w'|n' w'|e w'].
    + destruct Hc as [Hm Hrv]. cbn in Hrv. rewrite Hr in Hrv. cbn in Hrv.
      cbn [how]. split; [discriminate|]. split.
      * exists 1%nat. unfold generations. cbn. rewrite Hr, Hrv.
        repeat split; lia.
      * reflexivity.
    + exfalso. destruct Hc as [Hm Hrv]. cbn in Hrv. rewrite Hr in Hrv.
      cbn in Hrv, Hs. unfold should_continue in Hs. rewrite Hrv, Hm in Hs.
      destruct (r + 1 >? max_revisions (store w)) eqn:E; [discriminate|].
      rewrite Z.gtb_ltb in E. apply Z.ltb_ge in E. lia.
    + cbn [how]. split; [discriminate|]. split.
      * exists 0%nat. repeat split; try lia. discriminate.
      * intros H1 H2 H3. exfalso.
        destruct (Hok H1 H2 H3) as [Hnf _]; [intros _; now rewrite Hr|].
        now apply (Hnf e w').
  - destruct fuel as [|fuel]; [lia|]. cbn [invoke_from].
    pose proof (step_counters generate w) as Hc.
    pose proof (step_successor generate w) as Hs.
    pose proof (@step_succeeds generate w) as Hok.
    destruct (step env generate w) as [w'|n' w'|e w'].
    + exfalso. destruct Hc as [Hm Hrv]. cbn in Hrv. rewrite Hr in Hrv.
      cbn in Hrv, Hs. unfold should_continue in Hs. rewrite Hrv, Hm in Hs.
      destruct (r + 1 >? max_revisions (store w)) eqn:E; [|discriminate].
      rewrite Z.gtb_ltb in E. apply Z.ltb_lt in E. lia.
    + destruct Hc as [Hm Hrv]. cbn in Hrv. rewrite Hr in Hrv. cbn in Hrv.
      cbn in Hs. unfold should_continue in Hs. rewrite Hrv in Hs.
      destruct (r + 1 >? max_revisions (store w')); [discriminate|].
      inversion Hs; subst n'. clear Hs.
      assert (Hstr1 : completions_succeed env -> searches_succeed env ->
                      all_strings (content (store w)) = true ->
                      all_strings (content (store w')) = true).
      { intros H1 H2 H3.
        destruct (Hok H1 H2 H3) as [_ Ha]; [intros _; now rewrite Hr|].
        exact Ha. }
      clear Hok. cbn [how].
      set (v := {| at_node := generate; before := store w; after := store w' |}).
      assert (Hgen : forall run,
                 generations {| visits := v :: visits run; how := how run;
                                final := final run |}
                 = (Some r, Some (r + 1)) :: generations run).
      { intros run. unfold generations. cbn. now rewrite Hr, Hrv. }
      rewrite Hgen. clear Hgen.
      destruct fuel as [|fuel]; [lia|].
      destruct (@fixed_edge_turn reflect research_critique fuel w' eq_refl
                  (fun _ => eq_refl))
        as [(e & w2 & Hst2 & ->)|(w2 & Hst2 & Hm2 & Hr2 & -> & ->)].
      { cbn [how]. split; [discriminate|]. split.
        - exists 1%nat. rewrite generations_aborted.
          repeat split; try lia. discriminate.
        - intros H1 H2 H3. exfalso.
          destruct (@step_succeeds reflect w' H1 H2 (Hstr1 H1 H2 H3))
            as [Hnf _]; [discriminate|]. now apply (Hnf e w2). }
      assert (Hstr2 : completions_succeed env -> searches_succeed env ->
                      all_strings (content (store w)) = true ->
                      all_strings (content (store w2)) = true).
      { intros H1 H2 H3.
        destruct (@step_succeeds reflect w' H1 H2 (Hstr1 H1 H2 H3))
          as [_ Ha]; [discriminate|]. now rewrite Hst2 in Ha. }
      destruct fuel as [|fuel]; [lia|].
      destruct (@fixed_edge_turn research_critique generate fuel w2 eq_refl
                  (fun _ => eq_refl))
        as [(e & w3 & Hst3 & ->)|(w3 & Hst3 & Hm3 & Hr3 & -> & ->)].
      { cbn [how]. split; [discriminate|]. split.
        - exists 1%nat. rewrite generations_aborted.
          repeat split; try lia. discriminate.
        - intros H1 H2 H3. exfalso.
          destruct (@step_succeeds research_critique w2 H1 H2 (Hstr2 H1 H2 H3))
            as [Hnf _]; [discriminate|]. now apply (Hnf e w3). }
      assert (Hstr3 : completions_succeed env -> searches_succeed env ->
                      all_strings (content (store w)) = true ->
                      all_strings (content (store w3)) = true).
      { intros H1 H2 H3.
        destruct (@step_succeeds research_critique w2 H1 H2 (Hstr2 H1 H2 H3))
          as [_ Ha]; [discriminate|]. now rewrite Hst3 in Ha. }
      destruct (IH fuel w3 (r + 1)) as (Hfin & (k & Hk & Hle & Hex) & Hben).
      { now rewrite Hr3, Hr2. }
      { rewrite Hm3, Hm2, Hm. lia. }
      { lia. }
      split; [exact Hfin|]. split.
      * exists (S k). cbn [increments]. rewrite Hk.
        repeat split; try lia. intros Hf. specialize (Hex Hf). lia.
      * intros H1 H2 H3. apply Hben; auto.
    + cbn [how]. split; [discriminate|]. split.
      * exists 0%nat. repeat split; try lia. discriminate.
      * intros H1 H2 H3. exfalso.
        destruct (Hok H1 H2 H3) as [Hnf _]; [intros _; now rewrite Hr|].
        now apply (Hnf e w').
Qed.

End Run.

(** ** Claims about the graph *)

(** C1. A run that starts with the counter at 0 and a ceiling [N >= 0], given
    [3 N + 3] turns or more, does not run out of them: it ends.  Its Generate
    visits each take the counter from [i] to [i + 1], starting at 0, and
    there are at most [N + 1] of them; the run reaches the terminal state
    only after exactly [N + 1] of them; and it does reach it when every
    completion and every search succeeds. *)
Theorem revision_loop_terminates (env : Env) (s0 : AgentState) (h : history)
  (N : Z) (fuel : nat) :
  0 <= N ->
  revision_number s0 = Some 0 ->
  max_revisions s0 = N ->
  (3 * Z.to_nat N + 3 <= fuel)%nat ->
  let r := graph_invoke env fuel s0 h in
  how r <> OutOfFuel
  /\ (exists k,
         generations r = increments k 0
         /\ (k <= Z.to_nat N + 1)%nat
         /\ (how r = Finished -> k = (Z.to_nat N + 1)%nat))
  /\ (completions_succeed env -> searches_succeed env ->
      all_strings (content s0) = true -> how r = Finished).
Proof.
  intros HN Hr Hm Hfuel. unfold graph_invoke, entry_point.
  set (w0 := {| store := s0; past := h |}).
  destruct fuel as [|fuel]; [lia|].
  destruct (@fixed_edge_turn env planner research_plan fuel w0 eq_refl
              (fun _ => eq_refl))
    as [(e & w1 & Hst1 & E)|(w1 & Hst1 & Hm1 & Hr1 & Eh & Eg)].
  { cbv zeta. rewrite E. cbn [how]. split; [discriminate|]. split.
    - exists 0%nat. rewrite generations_aborted.
      repeat split; try lia. discriminate.
    - intros H1 H2 H3. exfalso.
      destruct (@step_succeeds env planner w0 H1 H2 H3) as [Hnf _];
        [discriminate|]. now apply (Hnf e w1). }
  assert (Hs1 : completions_succeed env -> searches_succeed env ->
                all_strings (content s0) = true ->
                all_strings (content (store w1)) = true).
  { intros H1 H2 H3.
    destruct (@step_succeeds env planner w0 H1 H2 H3) as [_ Ha];
      [discriminate|]. now rewrite Hst1 in Ha. }
  cbv zeta. rewrite Eh, Eg. clear Eh Eg.
  destruct fuel as [|fuel]; [lia|].
  destruct (@fixed_edge_turn env research_plan generate fuel w1 eq_refl
              (fun _ => eq_refl))
    as [(e & w2 & Hst2 & E)|(w2 & Hst2 & Hm2 & Hr2 & Eh & Eg)].
  { rewrite E. cbn [how]. split; [discriminate|]. split.
    - exists 0%nat. rewrite generations_aborted.
      repeat split; try lia. discriminate.
    - intros H1 H2 H3. exfalso.
      destruct (@step_succeeds env research_plan w1 H1 H2 (Hs1 H1 H2 H3))
        as [Hnf _]; [discriminate|]. now apply (Hnf e w2). }
  assert (Hs2 : completions_succeed env -> searches_succeed env ->
                all_strings (content s0) = true ->
                all_strings (content (store w2)) = true).
  { intros H1 H2 H3.
    destruct (@step_succeeds env research_plan w1 H1 H2 (Hs1 H1 H2 H3))
      as [_ Ha]; [discriminate|]. now rewrite Hst2 in Ha. }
  rewrite Eh, Eg. clear Eh Eg.
  destruct (@generate_loop env (Z.to_nat N) fuel w2 0)
    as (Hfin & (k & Hk & Hle & Hex) & Hben).
  { rewrite Hr2, Hr1. exact Hr. }
  { rewrite Hm2, Hm1. cbn [store w0]. rewrite Hm. f_equal. lia. }
  { lia. }
  split; [exact Hfin|]. split.
  - exists k. repeat split; assumption.
  - intros H1 H2 H3. apply Hben; auto.
Qed.

Lemma revision_loop_terminates_witness :
  how (graph_invoke env_live 9 (initial_state "Remote work" 2) []) <> OutOfFuel
  /\ (exists k,
         generations (graph_invoke env_live 9 (initial_state "Remote work" 2) [])
         = increments k 0
         /\ (k <= Z.to_nat 2 + 1)%nat
         /\ (how (graph_invoke env_live 9 (initial_state "Remote work" 2) [])
             = Finished -> k = (Z.to_nat 2 + 1)%nat))
  /\ (completions_succeed env_live -> searches_succeed env_live ->
      all_strings (content (initial_state "Remote work" 2)) = true ->
      how (graph_invoke env_live 9 (initial_state "Remote work" 2) [])
      = Finished).
Proof.
  apply (@revision_loop_terminates env_live (initial_state "Remote work" 2)
           [] 2 9).
  - lia.
  - reflexivity.
  - reflexivity.
  - simpl; lia.
Defined.

(** The sample world meets the two conditions of success. *)
Lemma env_live_completions : completions_succeed env_live.
Proof. intros h p. do 2 eexists. split; reflexivity. Qed.

Lemma env_live_searches : searches_succeed env_live.
Proof. intros h q k. eexists. split; reflexivity. Qed.

(** A ceiling of two: three drafts, three research stages, counter at 3. *)
Example run_with_two_revisions :
  let r := graph_invoke env_live 9 (initial_state "Remote work" 2) [] in
  how r = Finished
  /\ map at_node (visits r)
     = [planner; research_plan; generate; reflect; research_critique;
        generate; reflect; research_critique; generate]
  /\ generations r = increments 3 0
  /\ revision_number (store (final r)) = Some 3.
Proof. vm_compute. repeat split. Qed.

(** A ceiling of zero: one draft, no critique. *)
Example run_with_no_revision :
  let r := graph_invoke env_live 3 (initial_state "Climate policy" 0) [] in
  how r = Finished
  /\ map at_node (visits r) = [planner; research_plan; generate].
Proof. vm_compute. repeat split. Qed.

(** C2. After the Generate stage has returned and its update is written, the
    counter is the one the stage computed and [should_continue] is asked on
    the state so obtained: above the ceiling the turn stops the graph on that
    state, whose draft is the text just generated; otherwise the turn goes to
    Reflect.  A Generate turn has no third way on. *)
Theorem generate_routing (env : Env) (w : Machine) :
  match node_function env generate w with
  | (Raise e, w') => step env generate w = Failed e w'
  | (Ok u, w') =>
      let s' := apply_update u (store w') in
      let r := or_else (revision_number (store w)) 1 + 1 in
      revision_number s' = Some r
      /\ max_revisions s' = max_revisions (store w)
      /\ u_draft u = Some (draft s')
      /\ successor generate s'
         = Ok (if r >? max_revisions s' then END else goto reflect)
      /\ step env generate w
         = (if r >? max_revisions s'
            then Stopped (set_store s' w')
            else Next reflect (set_store s' w'))
      /\ forall fuel,
           invoke_from env (S fuel) generate w
           = (if r >? max_revisions s'
              then {| visits := [{| at_node := generate; before := store w;
                                    after := s' |}];
                      how := Finished;
                      final := set_store s' w' |}
              else {| visits := {| at_node := generate; before := store w;
                                   after := s' |}
                                :: visits (invoke_from env fuel reflect
                                             (set_store s' w'));
                      how := how (invoke_from env fuel reflect
                                    (set_store s' w'));
                      final := final (invoke_from env fuel reflect
                                        (set_store s' w')) |})
  end.
Proof.
  destruct (step_machine env generate w) as (in_place & H).
  pose proof (step_cases env generate w) as Hs.
  destruct (node_function env generate w) as [[u|e] w'] eqn:Hn;
    [|exact Hs].
  destruct H as (_ & Hst & _ & Hm & _ & Hr). cbn [node_eqb] in Hr.
  cbv zeta in Hs |- *.
  set (s' := apply_update u (store w')) in *.
  set (r := or_else (revision_number (store w)) 1 + 1) in *.
  assert (Hrev : revision_number s' = Some r).
  { unfold s', apply_update. cbn. now rewrite Hr. }
  assert (Hmax : max_revisions s' = max_revisions (store w)).
  { unfold s', apply_update. cbn. now rewrite Hm, Hst. }
  assert (Hdraft : u_draft u = Some (draft s')).
  { destruct (request_of generate (store w)) as [msgs|e] eqn:Hreq.
    - pose proof (@completion_stage_cases env generate w msgs eq_refl Hreq)
        as Hc.
      cbv zeta in Hc. rewrite Hn in Hc.
      destruct (mistral_http env (past w) _) as [body|e]; [|discriminate].
      destruct (completion_text body) as [text|e]; [|discriminate].
      destruct Hc as (u0 & E & _ & _ & _ & _ & Hd).
      inversion E; subst u0.
      unfold s', apply_update. cbn. now rewrite (Hd eq_refl).
    - rewrite (request_raises env generate w Hreq) in Hn. discriminate. }
  assert (Hsucc : successor generate s'
                  = Ok (if r >? max_revisions s' then END else goto reflect)).
  { unfold successor, should_continue. rewrite Hrev.
    now destruct (r >? max_revisions s'). }
  cbn [store set_store] in Hs. rewrite Hsucc in Hs.
  repeat split; try assumption.
  - destruct (r >? max_revisions s'); exact Hs.
  - intros fuel. cbn [invoke_from].
    destruct (r >? max_revisions s'); rewrite Hs; reflexivity.
Qed.

(** When the graph reaches the terminal state, [main] prints the draft of the
    final state, and that is the last thing it does. *)
Lemma main_prints_final_draft (env : Env) (fuel : nat) (line : string)
  (h : history) :
  nonempty (strip line) = true ->
  how (graph_invoke env fuel (initial_state (strip line) 3) h) = Finished ->
  main env fuel line h
  = (Finished,
     print [draft (store (final (graph_invoke env fuel
                                   (initial_state (strip line) 3) h)))]
       (print [PStr (nl ++ "Final Essay:")]
          (past (final (graph_invoke env fuel
                          (initial_state (strip line) 3) h))))).
Proof.
  intros Hne Hfin. unfold main. cbv zeta. now rewrite Hne, Hfin.
Qed.

(** C8. A topic that is empty once stripped is turned away at once: [main]
    prints the error and returns, whatever the world and the fuel; nothing is
    asked of the completion endpoint or of a search provider, and the graph
    is not invoked. *)
Theorem blank_topic_rejected (env : Env) (fuel : nat) (line : string)
  (h : history) :
  strip line = "" ->
  main env fuel line h
  = (Finished, print [PStr "Error: Essay topic cannot be empty."] h)
  /\ external_calls (snd (main env fuel line h)) = external_calls h.
Proof.
  intros Hblank.
  assert (E : main env fuel line h
              = (Finished, print [PStr "Error: Essay topic cannot be empty."] h)).
  { unfold main. cbv zeta. now rewrite Hblank. }
  split; [exact E|].
  rewrite E. unfold external_calls, print, record. cbn [snd].
  rewrite filter_app. cbn. apply app_nil_r.
Qed.

Lemma blank_topic_rejected_witness :
  main env_live 9 "   " []
  = (Finished, print [PStr "Error: Essay topic cannot be empty."] [])
  /\ external_calls (snd (main env_live 9 "   " [])) = external_calls [].
Proof.
  apply (@blank_topic_rejected env_live 9 "   " []).
  reflexivity.
Defined.

(** A topic that is not blank does start the graph: the first thing that
    happens is the completion request of the Plan stage. *)
Example topic_accepted :
  exists rest,
    snd (main env_live 9 " Remote work " [])
    = MistralPost (prompt_of [system PLAN_PROMPT; user [PStr "Remote work"]])
      :: rest.
Proof. vm_compute. eexists. reflexivity. Qed.

(** * Further properties *)

(** ** The resolver: what it calls and how it can fail *)

Lemma comprehension_getitem_missing k hits :
  forallb (has_key k) hits = false ->
  comprehension (fun r => py_getitem r k) (map PDict hits) = Raise KeyError.
Proof.
  induction hits as [|d hits IH]; simpl; intros H; [discriminate|].
  unfold has_key in H.
  destruct (dict_lookup d k); [|reflexivity].
  simpl in H. now rewrite (IH H).
Qed.

(** X1. The resolver can raise only on the answer of the secondary provider:
    when it raises, the secondary provider is configured and was called, its
    request did not fail and its body is truthy, and the exception is an
    [AttributeError] or a [TypeError].  Nothing the primary provider does, and
    no failed request, makes the resolver raise. *)
Theorem resolver_raises_only_on_secondary_body (env : Env) (q : string)
  (k : Z) (h : history) :
  match fst (search_with_fallback env q k h) with
  | Ok _ => True
  | Raise e =>
      (e = AttributeError \/ e = TypeError)
      /\ secondary_configured env = true
      /\ snd (search_with_fallback env q k h)
         = record (record h (TavilySearch q k))
             (GoogleGet (GOOGLE_API_KEY env) (GOOGLE_CSE_ID env) q k)
      /\ exists body,
           google_http env (record h (TavilySearch q k))
             (GOOGLE_API_KEY env) (GOOGLE_CSE_ID env) q k = Ok body
           /\ py_truthy body = true
  end.
Proof.
  unfold search_with_fallback, bind.
  pose proof (try_tavily_history env q k h) as Hh.
  destruct (try_tavily_never_raises env q k h) as [found Hn].
  destruct (try_tavily env q k h) as [r h1]. simpl in Hh, Hn. subst r h1.
  destruct found as [snippets|]; [exact I|].
  fold (secondary_configured env).
  destruct (secondary_configured env); [|exact I].
  unfold google_search, try_except, requests_get_google, lift, ret.
  destruct (google_http env _ _ _ _ _) as [body|e0] eqn:Hg; [|exact I].
  destruct (py_truthy body) eqn:Hb; [|exact I].
  assert (Hbody : exists b, Ok body = Ok b /\ py_truthy b = true)
    by (now exists body).
  destruct (py_get body "items" (PList [])) as [results|e1] eqn:Hi.
  - destruct (py_truthy results); [|exact I].
    destruct (py_iter results) as [rs|e2] eqn:Hit.
    + cbn [fst snd].
      destruct (comprehension _ rs) as [xs|e3] eqn:Hc; [exact I|].
      repeat split; try assumption.
      left. clear Hit. revert e3 Hc.
      induction rs as [|x rs IH]; intros e3 Hc; [discriminate|].
      simpl in Hc.
      destruct (py_get x "snippet" (PStr "")) eqn:Hx.
      * destruct (comprehension _ rs); [discriminate|].
        inversion Hc; subst. now apply IH.
      * destruct x; simpl in Hx; inversion Hx; subst; now inversion Hc.
    + cbn [fst snd]. repeat split; try assumption.
      right. destruct results; simpl in Hit; congruence.
  - cbn [fst snd]. repeat split; try assumption.
    left. destruct body; simpl in Hi; congruence.
Qed.

(** X2. What one resolver call asks of the outside: the primary provider,
    once and first, with the query and the limit it was given; after that at
    most the secondary provider, once, with the same query and limit, and
    only when it is configured and the [try] block fell through. *)
Theorem resolver_call_budget (env : Env) (q : string) (k : Z) (h : history) :
  exists tail,
    snd (search_with_fallback env q k h) = (h ++ TavilySearch q k :: tail)%list
    /\ (tail = []
        \/ (tail = [GoogleGet (GOOGLE_API_KEY env) (GOOGLE_CSE_ID env) q k]
            /\ secondary_configured env = true
            /\ fst (try_tavily env q k h) = Ok None)).
Proof.
  unfold search_with_fallback, bind.
  pose proof (try_tavily_history env q k h) as Hh.
  destruct (try_tavily_never_raises env q k h) as [found Hn].
  destruct (try_tavily env q k h) as [r h1]. simpl in Hh, Hn. subst r h1.
  assert (H0 : exists tail,
             record h (TavilySearch q k) = (h ++ TavilySearch q k :: tail)%list
             /\ (tail = []
                 \/ (tail = [GoogleGet (GOOGLE_API_KEY env) (GOOGLE_CSE_ID env)
                                       q k]
                     /\ secondary_configured env = true
                     /\ fst (Ok found, record h (TavilySearch q k)) = Ok None))).
  { exists []. split; [reflexivity|now left]. }
  destruct found as [snippets|]; [exact H0|].
  fold (secondary_configured env).
  destruct (secondary_configured env) eqn:Hc; [|exact H0].
  clear H0.
  unfold google_search, try_except, requests_get_google, lift, ret.
  set (g := GoogleGet _ _ _ _).
  assert (H1 : exists tail,
             record (record h (TavilySearch q k)) g
             = (h ++ TavilySearch q k :: tail)%list
             /\ (tail = []
                 \/ (tail = [g] /\ true = true
                     /\ fst (@Ok (option (list pyval)) None,
                             record h (TavilySearch q k)) = Ok None))).
  { exists [g]. split; [|right; repeat split]. unfold record.
    now rewrite <- app_assoc. }
  destruct (google_http env _ _ _ _ _) as [body|e]; cbn [snd]; [|exact H1].
  destruct (py_truthy body); [|exact H1].
  destruct (py_get body "items" (PList [])) as [results|e]; [|exact H1].
  destruct (py_truthy results); [|exact H1].
  destruct (py_iter results) as [rs|e]; exact H1.
Qed.

(** X3. One result of the primary provider without a content field spoils
    them all: the [KeyError] is caught, the contents that were there are
    dropped, and the resolver goes on as after a failure, to the secondary
    provider when it is configured and to the empty list when it is not. *)
Theorem primary_result_without_content (env : Env) (q : string) (k : Z)
  (h : history) (d : list (string * pyval))
  (hits : list (list (string * pyval))) :
  tavily env h q k = Ok (PDict d) ->
  dict_lookup d "results" = Some (PList (map PDict hits)) ->
  forallb (has_key "content") hits = false ->
  try_tavily env q k h = (Ok None, record h (TavilySearch q k))
  /\ (if secondary_configured env
      then snd (search_with_fallback env q k h)
           = record (record h (TavilySearch q k))
               (GoogleGet (GOOGLE_API_KEY env) (GOOGLE_CSE_ID env) q k)
      else search_with_fallback env q k h
           = (Ok [], record h (TavilySearch q k))).
Proof.
  intros Ht Hd Hmiss.
  assert (E : try_tavily env q k h = (Ok None, record h (TavilySearch q k))).
  { unfold try_tavily, try_except, bind, tavily_search, lift, ret.
    rewrite Ht. simpl. rewrite Hd.
    destruct hits as [|hit hits]; [discriminate|].
    cbn [py_truthy map py_iter].
    change (PDict hit :: map PDict hits) with (map PDict (hit :: hits)).
    now rewrite (comprehension_getitem_missing "content" (hit :: hits) Hmiss). }
  split; [exact E|].
  unfold search_with_fallback, bind. rewrite E.
  fold (secondary_configured env).
  destruct (secondary_configured env); [|reflexivity].
  unfold google_search, try_except, requests_get_google, lift, ret.
  destruct (google_http env _ _ _ _ _) as [body|e]; cbn [snd]; [|reflexivity].
  destruct (py_truthy body); [|reflexivity].
  destruct (py_get body "items" (PList [])) as [results|e]; [|reflexivity].
  destruct (py_truthy results); [|reflexivity].
  now destruct (py_iter results).
Qed.

Lemma primary_result_without_content_witness :
  try_tavily env_partial "cats" 2 [] = (Ok None, [TavilySearch "cats" 2])
  /\ (if secondary_configured env_partial
      then snd (search_with_fallback env_partial "cats" 2 [])
           = record (record [] (TavilySearch "cats" 2))
               (GoogleGet (GOOGLE_API_KEY env_partial)
                  (GOOGLE_CSE_ID env_partial) "cats" 2)
      else search_with_fallback env_partial "cats" 2 []
           = (Ok [], record [] (TavilySearch "cats" 2))).
Proof.
  apply (@primary_result_without_content env_partial "cats" 2 []
           [("results",
             PList [PDict [("content", PStr "kept?")];
                    PDict [("title", PStr "no content")]])]
           [[("content", PStr "kept?")]; [("title", PStr "no content")]]).
  - reflexivity.
  - reflexivity.
  - reflexivity.
Defined.

(** ** The stages: failures, written keys, calls *)

Lemma join_not_strings sep l :
  all_strings l = false -> join sep l = Raise TypeError.
Proof.
  induction l as [|x l IH]; intros H; [discriminate|].
  simpl in H. destruct x; try reflexivity.
  simpl in H. simpl. destruct l as [|y l]; [discriminate|].
  now rewrite (IH H).
Qed.

(** X4. A content that holds anything but strings stops the Generate stage
    before it asks for a completion: the join raises [TypeError], nothing is
    sent and the state is as it was.  The resolver passes on what the
    providers return, so one snippet that is not a string is enough. *)
Theorem generate_needs_string_content (env : Env) (w : Machine) :
  all_strings (content (store w)) = false ->
  node_function env generate w = (Raise TypeError, w)
  /\ step env generate w = Failed TypeError w.
Proof.
  intros H.
  assert (E : node_function env generate w = (Raise TypeError, w)).
  { apply request_raises. unfold request_of.
    now rewrite (join_not_strings (nl ++ nl) _ H). }
  split; [exact E|]. unfold step. now rewrite E.
Qed.

Lemma generate_needs_string_content_witness :
  node_function env_live generate tainted_machine
  = (Raise TypeError, tainted_machine)
  /\ step env_live generate tainted_machine = Failed TypeError tainted_machine.
Proof.
  apply (@generate_needs_string_content env_live tainted_machine).
  reflexivity.
Defined.

(** X5. A completion that answers but cannot be used fails the stage in the
    same clean way as a request that raises: when the body has no
    [choices[0].text], every stage raises the exception of the lookup; when
    the text of a research stage is not a string, the stage raises
    [AttributeError]; either way only the request has happened, no search
    was made and the state is as it was. *)
Theorem unusable_completion_atomic (env : Env) (n : node) (w : Machine)
  (msgs : list message) (body : pyval) :
  request_of n (store w) = Ok msgs ->
  mistral_http env (past w) (prompt_of msgs) = Ok body ->
  match completion_text body with
  | Raise e => node_function env n w = (Raise e, posted msgs w)
  | Ok text =>
      if is_research n
      then if is_str text then True
           else node_function env n w = (Raise AttributeError, posted msgs w)
      else is_ok (fst (node_function env n w)) = true
  end.
Proof.
  intros Hreq Hb.
  destruct (is_research n) eqn:Hn.
  - rewrite (research_request n (store w) Hn) in Hreq.
    inversion Hreq; subst msgs.
    rewrite (research_node_is_stage env n Hn).
    pose proof (research_stage_cases env (research_messages n) w) as H.
    cbv zeta in H. rewrite Hb in H.
    destruct (completion_text body) as [text|e]; [|exact H].
    destruct text; cbn [is_str]; try exact H. exact I.
  - pose proof (completion_stage_cases env n w Hn Hreq) as H.
    cbv zeta in H. rewrite Hb in H.
    destruct (completion_text body) as [text|e]; [|exact H].
    destruct H as (u & -> & _). reflexivity.
Qed.

Lemma unusable_completion_atomic_witness :
  match completion_text (PDict [("error", PStr "overloaded")]) with
  | Raise e =>
      node_function env_no_choices reflect sample_machine
      = (Raise e, posted [system REFLECTION_PROMPT; user [draft sample_state]]
                    sample_machine)
  | Ok text =>
      if is_research reflect
      then if is_str text then True
           else node_function env_no_choices reflect sample_machine
                = (Raise AttributeError,
                   posted [system REFLECTION_PROMPT; user [draft sample_state]]
                     sample_machine)
      else is_ok (fst (node_function env_no_choices reflect sample_machine))
           = true
  end.
Proof.
  apply (@unusable_completion_atomic env_no_choices reflect sample_machine
           [system REFLECTION_PROMPT; user [draft sample_state]]
           (PDict [("error", PStr "overloaded")])).
  - reflexivity.
  - reflexivity.
Defined.

(** The keys of the update of each stage. *)
Lemma stage_update_keys (env : Env) (n : node) (w : Machine) :
  match fst (node_function env n w) with
  | Raise _ => True
  | Ok u =>
      (if writes_plan n then True else u_plan u = None)
      /\ (if writes_draft n then True
          else u_draft u = None /\ u_revision_number u = None)
      /\ (if writes_critique n then True else u_critique u = None)
      /\ (if is_research n then True else u_content u = None)
  end.
Proof.
  destruct (is_research n) eqn:Hn.
  - rewrite (research_node_is_stage env n Hn).
    pose proof (research_stage_cases env (research_messages n) w) as H.
    cbv zeta in H.
    destruct (mistral_http env (past w) _) as [body|e]; [|now rewrite H].
    destruct (completion_text body) as [text|e]; [|now rewrite H].
    destruct (parse_queries text) as [queries|e]; [|now rewrite H].
    rewrite H. cbn [fst].
    destruct (fst (search_queries env _ _ _ _)); [|exact I].
    destruct n; try discriminate; cbn; repeat split.
  - destruct n; try discriminate;
      unfold node_function, plan_node, generation_node, reflection_node, bind,
        get_state, call_mistral_api, in_world, lift, ret; cbv zeta.
    + destruct (mistral_http env (past w) _) as [body|e]; [|exact I].
      destruct (completion_text body); [|exact I]. cbn. repeat split.
    + destruct (join (nl ++ nl) (content (store w))); [|exact I].
      destruct (mistral_http env (past w) _) as [body|e]; [|exact I].
      destruct (completion_text body); [|exact I]. cbn. repeat split.
    + destruct (mistral_http env (past w) _) as [body|e]; [|exact I].
      destruct (completion_text body); [|exact I]. cbn. repeat split.
Qed.

(** X6. Each stage writes its own keys and no other.  After a turn of the
    graph, ended or failed, the outline is as before unless the stage was
    Plan, the draft and the counter are as before unless it was Generate, the
    critique is as before unless it was Reflect, and the content is as before
    unless it was one of the two research stages. *)
Theorem stage_writes_only_its_keys (env : Env) (n : node) (w : Machine) :
  let s := store w in
  let s' := store (machine_of (step env n w)) in
  (if writes_plan n then True else plan s' = plan s)
  /\ (if writes_draft n then True
      else draft s' = draft s /\ revision_number s' = revision_number s)
  /\ (if writes_critique n then True else critique s' = critique s)
  /\ (if is_research n then True else content s' = content s).
Proof.
  cbv zeta.
  destruct (step_machine env n w) as (in_place & H).
  pose proof (stage_update_keys env n w) as Hk.
  pose proof (stage_effect env n w) as (in_place' & Hst' & _).
  destruct (node_function env n w) as [[u|e] w'] eqn:Hnf; cbn [fst snd] in *.
  - destruct H as (-> & Hst & _ & _ & _ & _).
    destruct Hk as (Hp & Hd & Hc & Hco).
    unfold set_store. cbn [store]. unfold apply_update.
    cbn [plan draft critique content revision_number]. rewrite Hst.
    cbn [set_content plan draft critique content revision_number].
    repeat split.
    + destruct (writes_plan n); [exact I|now rewrite Hp].
    + destruct (writes_draft n); [exact I|].
      destruct Hd as [-> ->]. now split.
    + destruct (writes_critique n); [exact I|now rewrite Hc].
    + destruct (is_research n) eqn:Hn; [exact I|]. rewrite Hco. cbn.
      assert (Hw : w' = w \/ exists msgs, w' = posted msgs w).
      { destruct (request_of n (store w)) as [msgs|e] eqn:Hreq.
        - pose proof (completion_stage_cases env n w Hn Hreq) as Hcase.
          cbv zeta in Hcase. rewrite Hnf in Hcase.
          destruct (mistral_http env (past w) _) as [body|e];
            [|discriminate].
          destruct (completion_text body); [|discriminate].
          destruct Hcase as (u0 & E & _). inversion E. right. now exists msgs.
        - rewrite (request_raises env n w Hreq) in Hnf. discriminate. }
      assert (Hs : store w' = store w).
      { destruct Hw as [->|[msgs ->]]; reflexivity. }
      rewrite Hs in Hst. rewrite Hst at 2. reflexivity.
  - destruct H as (-> & Hst).
    repeat split.
    + destruct (writes_plan n); [exact I|now rewrite Hst].
    + destruct (writes_draft n); [exact I|now rewrite Hst].
    + destruct (writes_critique n); [exact I|now rewrite Hst].
    + destruct (is_research n) eqn:Hn; [exact I|].
      destruct (request_of n (store w)) as [msgs|e0] eqn:Hreq.
      * pose proof (completion_stage_cases env n w Hn Hreq) as Hcase.
        cbv zeta in Hcase. rewrite Hnf in Hcase.
        destruct (mistral_http env (past w) _) as [body|e1].
        -- destruct (completion_text body).
           ++ destruct Hcase as (u0 & E & _). discriminate.
           ++ now inversion Hcase.
        -- now inversion Hcase.
      * rewrite (request_raises env n w Hreq) in Hnf. now inversion Hnf.
Qed.

Lemma count_tavily_app (h1 h2 : history) :
  count_tavily (h1 ++ h2)%list = (count_tavily h1 + count_tavily h2)%nat.
Proof. unfold count_tavily. now rewrite filter_app, length_app. Qed.

Lemma count_google_app (h1 h2 : history) :
  count_google (h1 ++ h2)%list = (count_google h1 + count_google h2)%nat.
Proof. unfold count_google. now rewrite filter_app, length_app. Qed.

Lemma count_mistral_app (h1 h2 : history) :
  count_mistral (h1 ++ h2)%list = (count_mistral h1 + count_mistral h2)%nat.
Proof. unfold count_mistral. now rewrite filter_app, length_app. Qed.

(** What the search loop adds to the history: search events only, one call
    of the primary provider for each query it reaches and at most as many of
    the secondary. *)
Lemma search_queries_history (env : Env) shared qs : forall c w,
  exists tail,
    past (snd (search_queries env shared qs c w)) = (past w ++ tail)%list
    /\ forallb is_search tail = true
    /\ (count_tavily tail <= List.length qs)%nat
    /\ (count_google tail <= count_tavily tail)%nat
    /\ count_mistral tail = 0%nat.
Proof.
  induction qs as [|q rest IH]; intros c w.
  - exists []. cbn. rewrite app_nil_r. repeat split; lia.
  - rewrite search_queries_cons.
    destruct (search_with_fallback_history env q 2 (past w))
      as (t1 & Ht1 & Hcase).
    assert (H1 : forallb is_search (TavilySearch q 2 :: t1) = true
                 /\ count_tavily (TavilySearch q 2 :: t1) = 1%nat
                 /\ (count_google (TavilySearch q 2 :: t1) <= 1)%nat
                 /\ count_mistral (TavilySearch q 2 :: t1) = 0%nat).
    { destruct Hcase as [->| ->]; cbn; repeat split; lia. }
    destruct H1 as (Hs1 & Hc1 & Hg1 & Hm1).
    destruct (search_with_fallback env q 2 (past w)) as [[results|e] h1];
      cbn [snd] in Ht1; subst h1.
    + set (w2 := {| store := _; past := _ |}).
      destruct (IH (c ++ results)%list w2) as (t2 & -> & Hs2 & Hc2 & Hg2 & Hm2).
      exists ((TavilySearch q 2 :: t1) ++ t2)%list.
      unfold w2. cbn [past]. rewrite <- app_assoc.
      split; [reflexivity|].
      rewrite forallb_app, Hs1, Hs2, count_tavily_app, count_google_app,
        count_mistral_app, Hc1, Hm1, Hm2.
      cbn [List.length]. repeat split; lia.
    + exists (TavilySearch q 2 :: t1). cbn [snd past].
      split; [reflexivity|]. rewrite Hs1, Hc1, Hm1. cbn [List.length].
      repeat split; lia.
Qed.

(** What a stage adds to the history: its completion request first, unless
    Generate could not join its content, and after it the searches of a
    research stage. *)
Lemma stage_history (env : Env) (n : node) (w : Machine) :
  exists tail,
    past (snd (node_function env n w))
    = (past w
       ++ match request_of n (store w) with
          | Ok msgs => MistralPost (prompt_of msgs) :: tail
          | Raise _ => []
          end)%list
    /\ forallb is_search tail = true
    /\ (count_tavily tail <= 3)%nat
    /\ (count_google tail <= count_tavily tail)%nat
    /\ count_mistral tail = 0%nat
    /\ (if is_research n then True else tail = [])
    /\ match fst (node_function env n w), request_of n (store w) with
       | Ok _, Raise _ => False
       | _, _ => True
       end.
Proof.
  assert (Hnil : forall msgs,
             exists tail : history,
               past (posted msgs w)
               = (past w ++ MistralPost (prompt_of msgs) :: tail)%list
               /\ forallb is_search tail = true
               /\ (count_tavily tail <= 3)%nat
               /\ (count_google tail <= count_tavily tail)%nat
               /\ count_mistral tail = 0%nat
               /\ (if is_research n then True else tail = [])
               /\ True).
  { intros msgs. exists []. cbn. repeat split; try lia.
    now destruct (is_research n). }
  destruct (is_research n) eqn:Hn.
  - rewrite (research_request n (store w) Hn).
    rewrite (research_node_is_stage env n Hn).
    pose proof (research_stage_cases env (research_messages n) w) as H.
    cbv zeta in H.
    destruct (mistral_http env (past w) _) as [body|e];
      [|rewrite H; apply Hnil].
    destruct (completion_text body) as [text|e]; [|rewrite H; apply Hnil].
    destruct (parse_queries text) as [queries|e]; [|rewrite H; apply Hnil].
    rewrite H. cbn [fst snd].
    destruct (search_queries_history env (shares_content (store w))
                (firstn 3 queries) (content (store w))
                (posted (research_messages n (store w)) w))
      as (tail & -> & Hs & Hc & Hg & Hm).
    exists tail. unfold posted, record. cbn [past]. rewrite <- app_assoc.
    rewrite length_firstn in Hc.
    repeat split; try assumption; try lia.
    now destruct (fst (search_queries _ _ _ _ _)).
  - destruct (request_of n (store w)) as [msgs|e] eqn:Hreq.
    + pose proof (completion_stage_cases env n w Hn Hreq) as H.
      cbv zeta in H.
      destruct (mistral_http env (past w) _) as [body|e];
        [|rewrite H; apply Hnil].
      destruct (completion_text body) as [text|e]; [|rewrite H; apply Hnil].
      destruct H as (u & -> & _). apply Hnil.
    + rewrite (request_raises env n w Hreq). exists []. cbn.
      rewrite app_nil_r. repeat split; lia.
Qed.

(** X7. What a stage asks of the outside.  Its completion request comes
    first and is its only one; Plan, Generate and Reflect ask for nothing
    else; a research stage then calls the primary provider at most three
    times and the secondary provider at most as often as the primary.  A
    Generate stage that cannot join its content asks for nothing. *)
Theorem stage_external_calls (env : Env) (n : node) (w : Machine) :
  let h := past w in
  let h' := past (snd (node_function env n w)) in
  match request_of n (store w) with
  | Raise _ => h' = h
  | Ok msgs =>
      (exists tail,
          h' = (h ++ MistralPost (prompt_of msgs) :: tail)%list
          /\ forallb is_search tail = true
          /\ (if is_research n then True else tail = []))
      /\ count_mistral h' = (count_mistral h + 1)%nat
      /\ (count_tavily h <= count_tavily h' <= count_tavily h + 3)%nat
      /\ (count_google h' - count_google h
          <= count_tavily h' - count_tavily h)%nat
  end.
Proof.
  cbv zeta.
  destruct (stage_history env n w) as (tail & Hp & Hs & Hc & Hg & Hm & Hr & _).
  destruct (request_of n (store w)) as [msgs|e].
  - split; [exists tail; repeat split; assumption|].
    rewrite Hp, count_mistral_app, count_tavily_app, count_google_app.
    change (MistralPost (prompt_of msgs) :: tail)
      with ([MistralPost (prompt_of msgs)] ++ tail)%list.
    rewrite count_mistral_app, count_tavily_app, count_google_app, Hm.
    cbn. repeat split; lia.
  - now rewrite Hp, app_nil_r.
Qed.

(** ** The run: its path, its frame, its requests *)

Section RunShape.

Variable env : Env.

(** X8. The visits of any run, from any stage and with any fuel, are a path
    of the graph: the first visit is the stage the run started at, on the
    state it started with; each later stage is the successor the graph picked
    on the state its predecessor left, and is handed exactly that state.  A
    run that finished ended on a Generate visit whose state was sent to END,
    and that state is the final one. *)
Theorem run_follows_edges (fuel : nat) (n : node) (w : Machine) :
  follows_edges n (store w) (visits (invoke_from env fuel n w))
  /\ match how (invoke_from env fuel n w) with
     | Finished =>
         exists earlier v,
           visits (invoke_from env fuel n w) = (earlier ++ [v])%list
           /\ at_node v = generate
           /\ successor generate (after v) = Ok END
           /\ store (final (invoke_from env fuel n w)) = after v
     | _ => True
     end.
Proof.
  revert n w. induction fuel as [|fuel IH]; intros n w; [now split|].
  cbn [invoke_from].
  pose proof (step_successor env n w) as Hs.
  destruct (step env n w) as [w'|n' w'|e w']; cbn [visits how final].
  - split; [now cbn|].
    assert (Hn : n = generate) by (destruct n; cbn in Hs; congruence).
    subst n. eexists [], _. repeat split. exact Hs.
  - destruct (IH n' w') as [Hpath Hend]. split.
    + cbn [follows_edges at_node before after].
      split; [reflexivity|]. split; [reflexivity|].
      destruct (visits (invoke_from env fuel n' w')) as [|v' rest] eqn:Hv;
        [exact I|].
      assert (Hat : at_node v' = n') by (destruct Hpath as (Hat & _); exact Hat).
      rewrite Hat. split; [exact Hs|exact Hpath].
    + destruct (how (invoke_from env fuel n' w')); try exact I.
      destruct Hend as (earlier & v & -> & Hg & Hsu & Hf).
      eexists (_ :: earlier), v. repeat split; assumption.
  - now split.
Qed.

Lemma step_task n w :
  task (store (machine_of (step env n w))) = task (store w)
  /\ max_revisions (store (machine_of (step env n w)))
     = max_revisions (store w).
Proof.
  destruct (step_machine env n w) as (in_place & H).
  destruct (node_function env n w) as [[u|e] w'].
  - destruct H as (-> & Hst & Ht & Hm & _).
    unfold set_store, apply_update. cbn. now rewrite Ht, Hm, Hst.
  - destruct H as (-> & ->). now split.
Qed.

(** X9. Along any run the topic and the ceiling are those of the initial
    state, in the state handed to every stage, in the state every stage
    leaves and in the final state; and the counter moves at Generate visits
    only, where it grows by one (to 2 when it was missing). *)
Theorem run_keeps_frame (fuel : nat) (n : node) (w : Machine) :
  Forall (fun v =>
            task (before v) = task (store w)
            /\ task (after v) = task (store w)
            /\ max_revisions (before v) = max_revisions (store w)
            /\ max_revisions (after v) = max_revisions (store w)
            /\ revision_number (after v)
               = (if node_eqb (at_node v) generate
                  then Some (or_else (revision_number (before v)) 1 + 1)
                  else revision_number (before v)))
         (visits (invoke_from env fuel n w))
  /\ task (store (final (invoke_from env fuel n w))) = task (store w)
  /\ max_revisions (store (final (invoke_from env fuel n w)))
     = max_revisions (store w).
Proof.
  revert n w. induction fuel as [|fuel IH]; intros n w.
  - cbn. repeat split. constructor.
  - cbn [invoke_from].
    pose proof (step_task n w) as [Ht Hm].
    pose proof (step_counters env n w) as Hc.
    destruct (step env n w) as [w'|n' w'|e w']; cbn [machine_of] in Ht, Hm;
      cbn [visits final].
    + repeat split; try assumption.
      constructor; [|constructor]. cbn. now destruct Hc.
    + destruct (IH n' w') as (Hall & Hft & Hfm).
      rewrite Ht in Hall, Hft. rewrite Hm in Hall, Hfm.
      repeat split; try assumption.
      constructor; [|exact Hall]. cbn. now destruct Hc.
    + repeat split; try assumption. constructor.
Qed.

Lemma step_requests n w :
  match step env n w with
  | Failed _ w' =>
      (count_mistral (past w) <= count_mistral (past w')
       <= count_mistral (past w) + 1)%nat
  | Stopped w' | Next _ w' =>
      count_mistral (past w') = (count_mistral (past w) + 1)%nat
  end.
Proof.
  destruct (stage_history env n w) as (tail & Hp & _ & _ & _ & Hm & _ & Hok).
  assert (Hcount : (count_mistral (past w)
                    <= count_mistral (past (snd (node_function env n w)))
                    <= count_mistral (past w) + 1)%nat
                   /\ (is_ok (fst (node_function env n w)) = true ->
                       count_mistral (past (snd (node_function env n w)))
                       = (count_mistral (past w) + 1)%nat)).
  { rewrite Hp, count_mistral_app.
    destruct (request_of n (store w)) as [msgs|e].
    - change (MistralPost (prompt_of msgs) :: tail)
        with ([MistralPost (prompt_of msgs)] ++ tail)%list.
      rewrite count_mistral_app, Hm. cbn. split; lia.
    - cbn. split; [lia|].
      destruct (fst (node_function env n w)); [contradiction|discriminate]. }
  destruct Hcount as [Hle Heq].
  pose proof (step_cases env n w) as Hs.
  destruct (node_function env n w) as [[u|e] w']; cbn [fst snd] in *.
  - specialize (Heq eq_refl). cbv zeta in Hs.
    destruct (successor n _) as [[|n']|e]; rewrite Hs; cbn [set_store past];
      lia.
  - now rewrite Hs.
Qed.

(** X10. A run asks for one completion for each stage it completes, and for
    nothing more unless it aborts: up to the end the number of completion
    requests made is the number of visits, and an aborted run has made at
    most one request beyond them, the one of the stage that failed. *)
Theorem run_completion_requests (fuel : nat) (n : node) (w : Machine) :
  let r := invoke_from env fuel n w in
  exists failed,
    count_mistral (past (final r))
    = (count_mistral (past w) + List.length (visits r) + failed)%nat
    /\ (failed <= 1)%nat
    /\ match how r with
       | Aborted _ => True
       | _ => failed = 0%nat
       end.
Proof.
  cbv zeta. revert n w. induction fuel as [|fuel IH]; intros n w.
  - exists 0%nat. cbn. repeat split; lia.
  - cbn [invoke_from]. pose proof (step_requests n w) as Hs.
    destruct (step env n w) as [w'|n' w'|e w']; cbn [visits how final].
    + exists 0%nat. cbn [List.length]. repeat split; lia.
    + destruct (IH n' w') as (failed & Hc & Hle & Hh).
      exists failed. cbn [List.length]. repeat split; try assumption. lia.
    + exists (count_mistral (past w') - count_mistral (past w))%nat.
      cbn [List.length]. repeat split; lia.
Qed.

(** A finished turn along a fixed edge, seen from the visits. *)
Lemma fixed_edge_visits n n' fuel w :
  node_eqb n generate = false ->
  (forall s, successor n s = Ok (goto n')) ->
  how (invoke_from env (S fuel) n w) = Finished ->
  exists w',
    max_revisions (store w') = max_revisions (store w)
    /\ revision_number (store w') = revision_number (store w)
    /\ how (invoke_from env fuel n' w') = Finished
    /\ map at_node (visits (invoke_from env (S fuel) n w))
       = n :: map at_node (visits (invoke_from env fuel n' w'))
    /\ final (invoke_from env (S fuel) n w) = final (invoke_from env fuel n' w').
Proof.
  intros Hn Hedge. cbn [invoke_from].
  pose proof (step_counters env n w) as Hc.
  pose proof (step_successor env n w) as Hs.
  destruct (step env n w) as [w'|n'' w'|e w']; cbn [how visits final].
  - rewrite Hedge in Hs. discriminate.
  - rewrite Hedge in Hs. inversion Hs; subst n''.
    rewrite Hn in Hc. destruct Hc as [Hm Hr].
    intros Hf. exists w'. repeat split; assumption.
  - discriminate.
Qed.

(** The loop from Generate, seen from a run that finished. *)
Lemma generate_loop_nodes (d : nat) :
  forall fuel w r,
    revision_number (store w) = Some r ->
    Z.to_nat (max_revisions (store w) - r) = d ->
    how (invoke_from env fuel generate w) = Finished ->
    map at_node (visits (invoke_from env fuel generate w)) = revision_cycle d
    /\ revision_number (store (final (invoke_from env fuel generate w)))
       = Some (r + Z.of_nat d + 1).
Proof.
  induction d as [|d IH]; intros fuel w r Hr Hd;
    (destruct fuel as [|fuel]; [discriminate|]); cbn [invoke_from];
    pose proof (step_counters env generate w) as Hc;
    pose proof (step_successor env generate w) as Hs;
    destruct (step env generate w) as [w'|n' w'|e w']; cbn [how visits final];
    try discriminate;
    destruct Hc as [Hm Hrv]; cbn in Hrv; rewrite Hr in Hrv; cbn in Hrv;
    cbn in Hs; unfold should_continue in Hs; rewrite Hrv, Hm in Hs;
    destruct (r + 1 >? max_revisions (store w)) eqn:E; try discriminate;
    rewrite Z.gtb_ltb in E.
  - intros _. split; [reflexivity|]. rewrite Hrv. f_equal. lia.
  - apply Z.ltb_ge in E. lia.
  - apply Z.ltb_lt in E. lia.
  - inversion Hs; subst n'. intros Hf. cbn [map at_node].
    destruct fuel as [|fuel]; [discriminate|].
    destruct (@fixed_edge_visits reflect research_critique fuel w' eq_refl
                (fun _ => eq_refl) Hf)
      as (w2 & Hm2 & Hr2 & Hf2 & -> & ->).
    destruct fuel as [|fuel]; [discriminate|].
    destruct (@fixed_edge_visits research_critique generate fuel w2 eq_refl
                (fun _ => eq_refl) Hf2)
      as (w3 & Hm3 & Hr3 & Hf3 & -> & ->).
    destruct (IH fuel w3 (r + 1)) as [Hnodes Hfinal].
    + now rewrite Hr3, Hr2.
    + apply Z.ltb_ge in E. rewrite Hm3, Hm2, Hm. lia.
    + exact Hf3.
    + split.
      * cbn [revision_cycle]. now rewrite Hnodes.
      * rewrite Hfinal. f_equal. lia.
Qed.

(** A run from the entry point, for any counter and any ceiling. *)
Lemma graph_invoke_general (s0 : AgentState) (h : history) (r : Z) (fuel : nat) :
  revision_number s0 = Some r ->
  let d := Z.to_nat (max_revisions s0 - r) in
  let run := graph_invoke env fuel s0 h in
  ((3 * d + 3 <= fuel)%nat -> how run <> OutOfFuel)
  /\ ((3 * d + 3 <= fuel)%nat ->
      completions_succeed env -> searches_succeed env ->
      all_strings (content s0) = true -> how run = Finished)
  /\ (how run = Finished ->
      map at_node (visits run) = planner :: research_plan :: revision_cycle d
      /\ revision_number (store (final run)) = Some (r + Z.of_nat d + 1)).
Proof.
  intros Hr d run. unfold run, graph_invoke, entry_point.
  set (w0 := {| store := s0; past := h |}).
  split; [|split].
  - intros Hfuel. destruct fuel as [|fuel]; [lia|].
    destruct (@fixed_edge_turn env planner research_plan fuel w0 eq_refl
                (fun _ => eq_refl))
      as [(e & w1 & _ & ->)|(w1 & _ & Hm1 & Hr1 & -> & _)]; [discriminate|].
    destruct fuel as [|fuel]; [lia|].
    destruct (@fixed_edge_turn env research_plan generate fuel w1 eq_refl
                (fun _ => eq_refl))
      as [(e & w2 & _ & ->)|(w2 & _ & Hm2 & Hr2 & -> & _)]; [discriminate|].
    apply (@generate_loop env d fuel w2 r).
    + now rewrite Hr2, Hr1.
    + now rewrite Hm2, Hm1.
    + lia.
  - intros Hfuel H1 H2 H3. destruct fuel as [|fuel]; [lia|].
    destruct (@step_succeeds env planner w0 H1 H2 H3) as [Hnf1 Ha1];
      [discriminate|].
    destruct (@fixed_edge_turn env planner research_plan fuel w0 eq_refl
                (fun _ => eq_refl))
      as [(e & w1 & Hst1 & _)|(w1 & Hst1 & Hm1 & Hr1 & -> & _)];
      [now destruct (Hnf1 e w1)|].
    rewrite Hst1 in Ha1. cbn [machine_of] in Ha1.
    destruct fuel as [|fuel]; [lia|].
    destruct (@step_succeeds env research_plan w1 H1 H2 Ha1) as [Hnf2 Ha2];
      [discriminate|].
    destruct (@fixed_edge_turn env research_plan generate fuel w1 eq_refl
                (fun _ => eq_refl))
      as [(e & w2 & Hst2 & _)|(w2 & Hst2 & Hm2 & Hr2 & -> & _)];
      [now destruct (Hnf2 e w2)|].
    rewrite Hst2 in Ha2. cbn [machine_of] in Ha2.
    apply (@generate_loop env d fuel w2 r); auto.
    + now rewrite Hr2, Hr1.
    + now rewrite Hm2, Hm1.
    + lia.
  - intros Hf. destruct fuel as [|fuel]; [discriminate|].
    destruct (@fixed_edge_visits planner research_plan fuel w0 eq_refl
                (fun _ => eq_refl) Hf)
      as (w1 & Hm1 & Hr1 & Hf1 & -> & ->).
    destruct fuel as [|fuel]; [discriminate|].
    destruct (@fixed_edge_visits research_plan generate fuel w1 eq_refl
                (fun _ => eq_refl) Hf1)
      as (w2 & Hm2 & Hr2 & Hf2 & -> & ->).
    destruct (@generate_loop_nodes d fuel w2 r) as [Hnodes Hfinal].
    + now rewrite Hr2, Hr1.
    + now rewrite Hm2, Hm1.
    + exact Hf2.
    + now rewrite Hnodes, Hfinal.
Qed.

End RunShape.

(** X11. The stages of a run that finished, for any counter [r] and ceiling
    at the start: Plan, Research-for-Plan, then [d] rounds of Generate,
    Reflect, Research-for-Critique and a last Generate, where [d] is the
    ceiling minus [r], or 0 when that is negative; and the counter ends at
    [r + d + 1]. *)
Theorem finished_run_shape (env : Env) (s0 : AgentState) (h : history)
  (r : Z) (fuel : nat) :
  revision_number s0 = Some r ->
  how (graph_invoke env fuel s0 h) = Finished ->
  map at_node (visits (graph_invoke env fuel s0 h))
  = planner :: research_plan
    :: revision_cycle (Z.to_nat (max_revisions s0 - r))
  /\ revision_number (store (final (graph_invoke env fuel s0 h)))
     = Some (r + Z.of_nat (Z.to_nat (max_revisions s0 - r)) + 1).
Proof.
  intros Hr Hf.
  destruct (@graph_invoke_general env s0 h r fuel Hr) as (_ & _ & H).
  exact (H Hf).
Qed.

Lemma finished_run_shape_witness :
  map at_node (visits (graph_invoke env_live 9 (initial_state "Remote work" 2) []))
  = planner :: research_plan
    :: revision_cycle
         (Z.to_nat (max_revisions (initial_state "Remote work" 2) - 0))
  /\ revision_number
       (store (final (graph_invoke env_live 9
                        (initial_state "Remote work" 2) [])))
     = Some (0 + Z.of_nat
                   (Z.to_nat (max_revisions (initial_state "Remote work" 2) - 0))
             + 1).
Proof.
  apply (@finished_run_shape env_live (initial_state "Remote work" 2) [] 0 9).
  - reflexivity.
  - reflexivity.
Defined.

Lemma generations_length (r : run) :
  List.length (generations r)
  = List.length (filter (fun n => node_eqb n generate) (map at_node (visits r))).
Proof.
  unfold generations. rewrite length_map.
  induction (visits r) as [|v vs IH]; [reflexivity|].
  cbn [filter map]. destruct (node_eqb (at_node v) generate); cbn; now rewrite IH.
Qed.

Lemma revision_cycle_generates d :
  List.length (filter (fun n => node_eqb n generate) (revision_cycle d))
  = S d.
Proof. induction d as [|d IH]; [reflexivity|]. cbn. now rewrite IH. Qed.

(** X12. A run ends whatever the counter and the ceiling it starts with, a
    negative ceiling or one already passed included: with [d] the ceiling
    minus the counter, or 0 when that is negative, [3 d + 3] turns are
    enough; the run reaches the terminal state when completions and searches
    succeed, and a run that reaches it has drafted exactly [d + 1] times, so
    at least once. *)
Theorem run_ends_and_drafts_at_least_once (env : Env) (s0 : AgentState)
  (h : history) (r : Z) (fuel : nat) :
  revision_number s0 = Some r ->
  (3 * Z.to_nat (max_revisions s0 - r) + 3 <= fuel)%nat ->
  how (graph_invoke env fuel s0 h) <> OutOfFuel
  /\ match how (graph_invoke env fuel s0 h) with
     | Finished =>
         List.length (generations (graph_invoke env fuel s0 h))
         = S (Z.to_nat (max_revisions s0 - r))
     | _ =>
         ~ (completions_succeed env /\ searches_succeed env
            /\ all_strings (content s0) = true)
     end.
Proof.
  intros Hr Hfuel.
  destruct (@graph_invoke_general env s0 h r fuel Hr) as (H1 & H2 & H3).
  split; [exact (H1 Hfuel)|].
  destruct (how (graph_invoke env fuel s0 h)) eqn:Hhow.
  - destruct (H3 eq_refl) as [Hnodes _].
    rewrite generations_length, Hnodes. cbn [filter node_eqb].
    apply revision_cycle_generates.
  - intros (Hc & Hs & Ha). now specialize (H2 Hfuel Hc Hs Ha).
  - intros (Hc & Hs & Ha). now specialize (H2 Hfuel Hc Hs Ha).
Qed.

Lemma run_ends_and_drafts_at_least_once_witness :
  how (graph_invoke env_live 3 (initial_state "Remote work" (-5)) [])
  <> OutOfFuel
  /\ match how (graph_invoke env_live 3 (initial_state "Remote work" (-5)) [])
     with
     | Finished =>
         List.length
           (generations
              (graph_invoke env_live 3 (initial_state "Remote work" (-5)) []))
         = S (Z.to_nat (max_revisions (initial_state "Remote work" (-5)) - 0))
     | _ =>
         ~ (completions_succeed env_live /\ searches_succeed env_live
            /\ all_strings (content (initial_state "Remote work" (-5))) = true)
     end.
Proof.
  apply (@run_ends_and_drafts_at_least_once env_live
           (initial_state "Remote work" (-5)) [] 0 3).
  - reflexivity.
  - simpl; lia.
Defined.

(** X13. [main] on a topic that is not blank, in a world where completions
    and searches succeed: with the ceiling of 3 that it sets, twelve turns
    finish the run; the stages are Plan, Research-for-Plan and three rounds
    of Generate, Reflect, Research-for-Critique before the fourth and last
    Generate; the counter ends at 4; and what [main] prints last is the draft
    of the final state, after the heading. *)
Theorem main_runs_four_drafts (env : Env) (fuel : nat) (line : string)
  (h : history) :
  nonempty (strip line) = true ->
  (12 <= fuel)%nat ->
  completions_succeed env ->
  searches_succeed env ->
  let run := graph_invoke env fuel (initial_state (strip line) 3) h in
  main env fuel line h
  = (Finished,
     print [draft (store (final run))]
       (print [PStr (nl ++ "Final Essay:")] (past (final run))))
  /\ map at_node (visits run)
     = [planner; research_plan;
        generate; reflect; research_critique;
        generate; reflect; research_critique;
        generate; reflect; research_critique;
        generate]
  /\ revision_number (store (final run)) = Some 4.
Proof.
  intros Hne Hfuel Hc Hs run.
  destruct (@graph_invoke_general env (initial_state (strip line) 3) h 0 fuel
              eq_refl)
    as (_ & H2 & H3).
  assert (Hf : how run = Finished).
  { apply H2; auto. }
  destruct (H3 Hf) as [Hnodes Hrev].
  split; [|split].
  - unfold main. cbv zeta. fold run. now rewrite Hne, Hf.
  - exact Hnodes.
  - exact Hrev.
Qed.

Lemma main_runs_four_drafts_witness :
  main env_live 12 " Remote work " []
  = (Finished,
     print [draft (store (final (graph_invoke env_live 12
                                   (initial_state (strip " Remote work ") 3)
                                   [])))]
       (print [PStr (nl ++ "Final Essay:")]
          (past (final (graph_invoke env_live 12
                          (initial_state (strip " Remote work ") 3) [])))))
  /\ map at_node
       (visits (graph_invoke env_live 12
                  (initial_state (strip " Remote work ") 3) []))
     = [planner; research_plan;
        generate; reflect; research_critique;
        generate; reflect; research_critique;
        generate; reflect; research_critique;
        generate]
  /\ revision_number
       (store (final (graph_invoke env_live 12
                        (initial_state (strip " Remote work ") 3) [])))
     = Some 4.
Proof.
  apply (@main_runs_four_drafts env_live 12 " Remote work " []).
  - reflexivity.
  - lia.
  - exact env_live_completions.
  - exact env_live_searches.
Defined.

(** ** The queries *)

Lemma rstrip_again s : rstrip (rstrip s) = rstrip s.
Proof.
  induction s as [|c s IH]; [reflexivity|].
  cbn [rstrip]. destruct (rstrip s) as [|c' r] eqn:E.
  - destruct (py_isspace c) eqn:Hc; [reflexivity|].
    cbn [rstrip]. now rewrite Hc.
  - cbn [rstrip]. cbn [rstrip] in IH.
    destruct (rstrip r) as [|c'' r'] eqn:E'.
    + destruct (py_isspace c'); [discriminate|]. now inversion IH.
    + now inversion IH.
Qed.

Lemma rstrip_cons c s :
  py_isspace c = false -> rstrip (String c s) = String c (rstrip s).
Proof.
  intros Hc. cbn [rstrip]. destruct (rstrip s); [now rewrite Hc|reflexivity].
Qed.

Lemma lstrip_head s :
  lstrip s = ""
  \/ exists c t, lstrip s = String c t /\ py_isspace c = false.
Proof.
  induction s as [|c s IH]; [now left|].
  cbn [lstrip]. destruct (py_isspace c) eqn:Hc; [exact IH|].
  right. now exists c, s.
Qed.

Lemma strip_again s : strip (strip s) = strip s.
Proof.
  unfold strip. destruct (lstrip_head s) as [->|(c & t & -> & Hc)];
    [reflexivity|].
  rewrite (@rstrip_cons c t Hc). cbn [lstrip]. rewrite Hc.
  rewrite (@rstrip_cons c (rstrip t) Hc). now rewrite rstrip_again.
Qed.

Lemma has_char_lstrip c s :
  has_char c s = false -> has_char c (lstrip s) = false.
Proof.
  induction s as [|c' s IH]; [trivial|].
  cbn [lstrip]. destruct (py_isspace c'); [|trivial].
  cbn [has_char]. intros H. apply orb_false_iff in H as [_ H]. now apply IH.
Qed.

Lemma has_char_rstrip c s :
  has_char c s = false -> has_char c (rstrip s) = false.
Proof.
  induction s as [|c' s IH]; [trivial|].
  cbn [has_char]. intros H. apply orb_false_iff in H as [H1 H2].
  specialize (IH H2). cbn [rstrip].
  destruct (rstrip s) as [|c'' r].
  - destruct (py_isspace c'); [reflexivity|]. cbn [has_char]. now rewrite H1.
  - cbn [has_char] in *. now rewrite H1, IH.
Qed.

Lemma split_newline_pieces s :
  Forall (fun piece => has_char newline piece = false) (split_newline s).
Proof.
  induction s as [|c s IH]; [now repeat constructor|].
  cbn [split_newline]. destruct (Ascii.eqb c newline) eqn:Hc.
  - constructor; [reflexivity|exact IH].
  - destruct (split_newline s) as [|piece rest].
    + constructor; [|constructor]. cbn [has_char]. now rewrite Hc.
    + inversion IH; subst. constructor; [|assumption].
      cbn [has_char]. now rewrite Hc.
Qed.

(** X15. Every query that is parsed out of a completion is fit to be sent:
    it is not empty, it has no line break in it, and it neither begins nor
    ends with white space, so that stripping it again changes nothing. *)
Theorem queries_are_clean (text q : string) :
  In q (queries_of text) ->
  q <> "" /\ strip q = q /\ has_char newline q = false.
Proof.
  unfold queries_of. intros H. apply in_flat_map in H as (piece & Hin & Hq).
  destruct (nonempty (strip piece)) eqn:Hne; [|contradiction].
  destruct Hq as [<-|[]].
  split; [|split].
  - intros E. unfold nonempty in Hne. rewrite E in Hne. discriminate.
  - apply strip_again.
  - pose proof (split_newline_pieces text) as Hall.
    rewrite Forall_forall in Hall. specialize (Hall piece Hin).
    unfold strip. now apply has_char_rstrip, has_char_lstrip.
Qed.

Lemma queries_are_clean_witness :
  "beta" <> "" /\ strip "beta" = "beta" /\ has_char newline "beta" = false.
Proof.
  apply (@queries_are_clean ("alpha" ++ nl ++ " beta " ++ nl ++ nl ++ "gamma")
           "beta").
  vm_compute. right. left. reflexivity.
Defined.
